(** * ChallengeMewo: a shallow embedding of [main.py]

    The script trains a multi-label tag classifier.  This development
    embeds the parts of [main.py] that carry a functional contract:

    - [splitter], the slicing of a feature table into six column groups;
    - the soft-F1 losses and metrics ([f1_loss], [weighted_f1_loss],
      [f1], [weighted_f1], [partial_weighted_f1], [wf1_loss_p]);
    - [block] and the assembled Keras graph, as a symbolic layer graph with
      a shape function and a forward pass;
    - the chunked prediction loop at the end of the script;
    - the early-stopping policy of the training run, whose code is in Keras
      and which is modelled from the specification.

    Numbers.  Tensor entries are modelled by [tfloat]: exact rationals
    extended with the IEEE special values [+inf], [-inf] and [NaN], so that
    [0/0], [x/0] and the [tf.math.is_nan] test of the source keep their
    meaning.  Rounding error, overflow and the sign of zero are outside the
    model; the statements about the losses are therefore made on the
    domain the losses are trained on, labels in {0,1} and predictions in
    [0,1], where no sum overflows, and they bound a value by [<=] wherever
    rounding can close a strict gap.  [K.epsilon()] is a Keras setting that
    [main.py] does not fix; every function that uses it takes it as the
    parameter [eps].

    Tables.  A [dataframe] carries an [int64] index, as the script writes
    it with the [%d] format, and [model.predict] is partial: Keras raises
    on a batch without samples. *)

From Stdlib Require Import QArith Qround ZArith List Bool Arith Lia Lqa.
From Stdlib Require String.
Import ListNotations.
Import String.StringSyntax.
Delimit Scope string_scope with string.
Open Scope Q_scope.

(* ------------------------------------------------------------------ *)
(** * Numbers with IEEE special values *)
(* ------------------------------------------------------------------ *)

Inductive tfloat : Type :=
| Fin (q : Q)
| PInf
| NInf
| NaN.

Definition Qis_zero (q : Q) : bool := Qeq_bool q 0.
Definition Qis_pos (q : Q) : bool := negb (Qle_bool q 0).

(** An infinity of the sign of [q] ([q] is not zero where this is used). *)
Definition inf_of_sign (q : Q) : tfloat := if Qis_pos q then PInf else NInf.

Definition fneg (x : tfloat) : tfloat :=
  match x with
  | Fin q => Fin (- q)
  | PInf => NInf
  | NInf => PInf
  | NaN => NaN
  end.

Definition fadd (x y : tfloat) : tfloat :=
  match x, y with
  | NaN, _ | _, NaN => NaN
  | Fin a, Fin b => Fin (a + b)
  | PInf, NInf | NInf, PInf => NaN
  | PInf, _ | _, PInf => PInf
  | NInf, _ | _, NInf => NInf
  end.

Definition fsub (x y : tfloat) : tfloat := fadd x (fneg y).

Definition fmul (x y : tfloat) : tfloat :=
  match x, y with
  | NaN, _ | _, NaN => NaN
  | Fin a, Fin b => Fin (a * b)
  | Fin a, PInf | PInf, Fin a =>
      if Qis_zero a then NaN else inf_of_sign a
  | Fin a, NInf | NInf, Fin a =>
      if Qis_zero a then NaN else fneg (inf_of_sign a)
  | PInf, PInf | NInf, NInf => PInf
  | PInf, NInf | NInf, PInf => NInf
  end.

Definition fdiv (x y : tfloat) : tfloat :=
  match x, y with
  | NaN, _ | _, NaN => NaN
  | Fin a, Fin b =>
      if Qis_zero b
      then (if Qis_zero a then NaN else inf_of_sign a)
      else Fin (a / b)
  | Fin _, (PInf | NInf) => Fin 0
  | PInf, Fin b => if Qle_bool 0 b then PInf else NInf
  | NInf, Fin b => if Qle_bool 0 b then NInf else PInf
  | (PInf | NInf), (PInf | NInf) => NaN
  end.

(** [tf.math.is_nan]. *)
Definition is_nan (x : tfloat) : bool :=
  match x with NaN => true | _ => false end.

(** Rounding of a rational to the nearest integer, ties to the even one,
    which is what [K.round] does. *)
Definition Qround_half_even (q : Q) : Z :=
  let f := Qfloor q in
  let d := q - inject_Z f in
  if Qle_bool d (1 # 2)
  then (if Qeq_bool d (1 # 2) then (if Z.even f then f else f + 1)%Z else f)
  else (f + 1)%Z.

Definition fround (x : tfloat) : tfloat :=
  match x with
  | Fin q => Fin (inject_Z (Qround_half_even q))
  | _ => x
  end.

(** Equality of floats up to the representation of the rational. *)
Definition feq (x y : tfloat) : Prop :=
  match x, y with
  | Fin a, Fin b => a == b
  | PInf, PInf | NInf, NInf | NaN, NaN => True
  | _, _ => False
  end.

(** [x] is a finite number between [lo] and [hi]. *)
Definition fbetween (lo hi : Q) (x : tfloat) : Prop :=
  match x with
  | Fin q => lo <= q /\ q <= hi
  | _ => False
  end.

Definition is_fin (x : tfloat) : Prop :=
  match x with Fin _ => True | _ => False end.

Definition fnonneg (x : tfloat) : Prop :=
  match x with Fin q => 0 <= q | _ => False end.

(** An entry of a label matrix: exactly 0 or 1. *)
Definition fbinary (x : tfloat) : Prop :=
  match x with Fin q => q == 0 \/ q == 1 | _ => False end.

(* ------------------------------------------------------------------ *)
(** * Vectors and rank-2 tensors *)
(* ------------------------------------------------------------------ *)

Definition vec := list tfloat.

Fixpoint zip_with {A B C : Type} (f : A -> B -> C) (xs : list A) (ys : list B)
  : list C :=
  match xs, ys with
  | x :: xs', y :: ys' => f x y :: zip_with f xs' ys'
  | _, _ => []
  end.

(** Elementwise operations on vectors of one length, and the broadcast of a
    scalar on either side. *)
Definition vadd (u v : vec) : vec := zip_with fadd u v.
Definition vmul (u v : vec) : vec := zip_with fmul u v.
Definition vdiv (u v : vec) : vec := zip_with fdiv u v.
Definition vadd_s (u : vec) (s : tfloat) : vec := map (fun x => fadd x s) u.
Definition vdiv_s (u : vec) (s : tfloat) : vec := map (fun x => fdiv x s) u.
Definition smul_v (s : tfloat) (u : vec) : vec := map (fun x => fmul s x) u.
Definition ssub_v (s : tfloat) (u : vec) : vec := map (fun x => fsub s x) u.

(** [K.sum] and [K.mean] of a vector (all axes reduced). *)
Definition vsum (u : vec) : tfloat := fold_left fadd u (Fin 0).
Definition vmean (u : vec) : tfloat :=
  fdiv (vsum u) (Fin (inject_Z (Z.of_nat (length u)))).

(** [tf.where(tf.math.is_nan(v), tf.zeros_like(v), v)]. *)
Definition nan_to_zero (u : vec) : vec :=
  map (fun x => if is_nan x then Fin 0 else x) u.

(** A rank-2 tensor of shape [(length t_rows, t_cols)].  The column count is
    kept beside the rows since a batch may be empty while still having its
    columns. *)
Record tensor2 : Type := mkT { t_cols : nat; t_rows : list vec }.

Definition wf_tensor (t : tensor2) : Prop :=
  Forall (fun r => length r = t_cols t) (t_rows t).

Definition same_shape (a b : tensor2) : Prop :=
  t_cols a = t_cols b /\ length (t_rows a) = length (t_rows b).

(** Elementwise product of two tensors of one shape, and [1 - t]. *)
Definition tmul (a b : tensor2) : tensor2 :=
  mkT (t_cols a) (zip_with vmul (t_rows a) (t_rows b)).
Definition one_minus (a : tensor2) : tensor2 :=
  mkT (t_cols a) (map (ssub_v (Fin 1)) (t_rows a)).
Definition tround (a : tensor2) : tensor2 :=
  mkT (t_cols a) (map (map fround) (t_rows a)).

(** [K.sum(t, axis=0)]: the sum over the batch axis, one entry per column. *)
Definition sum_axis0 (t : tensor2) : vec :=
  fold_left vadd (t_rows t) (repeat (Fin 0) (t_cols t)).

(** Python's [xs[lo:hi]] for [0 <= lo <= hi]: out-of-range bounds are
    clipped. *)
Definition py_slice {A : Type} (lo hi : nat) (xs : list A) : list A :=
  firstn (hi - lo) (skipn lo xs).

(** [t[slice(lo, hi)]]: a slice along the FIRST axis (the batch rows). *)
Definition slice_rows (lo hi : nat) (t : tensor2) : tensor2 :=
  mkT (t_cols t) (py_slice lo hi (t_rows t)).

(** [t[:, slice(lo, hi)]]: a slice along the second axis (the columns). *)
Definition slice_cols (lo hi : nat) (t : tensor2) : tensor2 :=
  mkT (length (py_slice lo hi (seq 0 (t_cols t))))
      (map (py_slice lo hi) (t_rows t)).

(* ------------------------------------------------------------------ *)
(** * The soft-F1 losses and metrics *)
(* ------------------------------------------------------------------ *)

(** The per-column vectors of lines 32-39 and 61-68 of [main.py] (the two
    loss functions repeat the same statements). *)
Definition tp_vec (y_true y_pred : tensor2) : vec :=
  sum_axis0 (tmul y_true y_pred).
Definition fp_vec (y_true y_pred : tensor2) : vec :=
  sum_axis0 (tmul (one_minus y_true) y_pred).
Definition fn_vec (y_true y_pred : tensor2) : vec :=
  sum_axis0 (tmul y_true (one_minus y_pred)).

(** The three denominators [tp + fp + eps], [tp + fn + eps], [p + r + eps]. *)
Definition p_den (eps : Q) (y_true y_pred : tensor2) : vec :=
  vadd_s (vadd (tp_vec y_true y_pred) (fp_vec y_true y_pred)) (Fin eps).
Definition r_den (eps : Q) (y_true y_pred : tensor2) : vec :=
  vadd_s (vadd (tp_vec y_true y_pred) (fn_vec y_true y_pred)) (Fin eps).
Definition p_vec (eps : Q) (y_true y_pred : tensor2) : vec :=
  vdiv (tp_vec y_true y_pred) (p_den eps y_true y_pred).
Definition r_vec (eps : Q) (y_true y_pred : tensor2) : vec :=
  vdiv (tp_vec y_true y_pred) (r_den eps y_true y_pred).
Definition f1_den (eps : Q) (y_true y_pred : tensor2) : vec :=
  vadd_s (vadd (p_vec eps y_true y_pred) (r_vec eps y_true y_pred)) (Fin eps).

(** [f1 = 2 * p * r / (p + r + K.epsilon())]. *)
Definition f1_vector (eps : Q) (y_true y_pred : tensor2) : vec :=
  vdiv (vmul (smul_v (Fin 2) (p_vec eps y_true y_pred)) (r_vec eps y_true y_pred))
       (f1_den eps y_true y_pred).

(** [f1_loss]; the casts to float are the identity on [tfloat]. *)
Definition f1_loss (eps : Q) (y_true y_pred : tensor2) : tfloat :=
  let f1 := f1_vector eps y_true y_pred in
  let f1 := nan_to_zero f1 in
  fsub (Fin 1) (vmean f1).

(** [f1]: the metric, on rounded predictions. *)
Definition f1 (eps : Q) (y_true y_pred : tensor2) : tfloat :=
  let y_pred := tround y_pred in
  fsub (Fin 1) (f1_loss eps y_true y_pred).

(** The vector [f1 * gp / K.sum(gp)] of line 69, before the NaN test. *)
Definition weighted_terms (eps : Q) (y_true y_pred : tensor2) : vec :=
  let gp := sum_axis0 y_true in
  let f1 := f1_vector eps y_true y_pred in
  vdiv_s (vmul f1 gp) (vsum gp).

Definition weighted_f1_loss (eps : Q) (y_true y_pred : tensor2) : tfloat :=
  let weighted_f1 := weighted_terms eps y_true y_pred in
  let weighted_f1 := nan_to_zero weighted_f1 in
  fsub (Fin 1) (vsum weighted_f1).

Definition weighted_f1 (eps : Q) (y_true y_pred : tensor2) : tfloat :=
  let y_pred := tround y_pred in
  fsub (Fin 1) (weighted_f1_loss eps y_true y_pred).


(** [wf1_loss_p]: the source indexes with [y_true[slice(0, 90)]], a slice
    along the first axis. *)
Definition wf1_loss_p (eps : Q) (y_true y_pred : tensor2) : tfloat :=
  fdiv
    (fadd
       (fadd
          (weighted_f1_loss eps (slice_rows 0 90 y_true) (slice_rows 0 90 y_pred))
          (weighted_f1_loss eps (slice_rows 90 202 y_true) (slice_rows 90 202 y_pred)))
       (weighted_f1_loss eps (slice_rows 202 248 y_true) (slice_rows 202 248 y_pred)))
    (Fin 3).

(** The value of [K.epsilon()] when the Keras configuration is left alone,
    [1e-07]; used for the concrete evaluations only. *)
Definition keras_epsilon : Q := 1 # 10000000.

(** A row of [n] labels that are 1 at the positions listed in [hot]. *)
Definition one_hot (hot : list nat) (n : nat) : vec :=
  map (fun c => if existsb (Nat.eqb c) hot then Fin 1 else Fin 0) (seq 0 n).

(** A batch of one sample that carries the first genre, the first
    instrument and the first mood (columns 0, 90 and 202), with all 248
    labels predicted exactly. *)
Definition one_sample_batch : tensor2 := mkT 248 [one_hot [0; 90; 202]%nat 248].

(** A batch of one sample and one label, which is absent and predicted so. *)
Definition no_support_batch : tensor2 := mkT 1 [[Fin 0]].

(** A batch of one sample and one label, which is present and predicted so. *)
Definition single_positive_batch : tensor2 := mkT 1 [[Fin 1]].

(** A batch of two samples and two labels: the first label is carried by
    the first sample, the second label by none; and soft predictions for
    it. *)
Definition partly_labelled_batch : tensor2 :=
  mkT 2 [[Fin 1; Fin 0]; [Fin 0; Fin 0]].
Definition partly_labelled_prediction : tensor2 :=
  mkT 2 [[Fin (3 # 4); Fin (1 # 4)]; [Fin (1 # 4); Fin (1 # 2)]].

(* ------------------------------------------------------------------ *)
(** * The losses as the specification words them *)
(* ------------------------------------------------------------------ *)

(** Column [c] of a tensor, read over the batch. *)
Definition column (t : tensor2) (c : nat) : vec :=
  map (fun r => nth c r NaN) (t_rows t).

Definition tp_col (yt yp : vec) : tfloat := vsum (zip_with fmul yt yp).
Definition fp_col (yt yp : vec) : tfloat :=
  vsum (zip_with (fun t p => fmul (fsub (Fin 1) t) p) yt yp).
Definition fn_col (yt yp : vec) : tfloat :=
  vsum (zip_with (fun t p => fmul t (fsub (Fin 1) p)) yt yp).
Definition gp_col (yt : vec) : tfloat := vsum yt.

Definition precision_col (eps : Q) (yt yp : vec) : tfloat :=
  fdiv (tp_col yt yp) (fadd (fadd (tp_col yt yp) (fp_col yt yp)) (Fin eps)).
Definition recall_col (eps : Q) (yt yp : vec) : tfloat :=
  fdiv (tp_col yt yp) (fadd (fadd (tp_col yt yp) (fn_col yt yp)) (Fin eps)).

(** [f1 = 2pr / (p + r + eps)] of one column. *)
Definition f1_col (eps : Q) (yt yp : vec) : tfloat :=
  let p := precision_col eps yt yp in
  let r := recall_col eps yt yp in
  fdiv (fmul (fmul (Fin 2) p) r) (fadd (fadd p r) (Fin eps)).

Definition nan0 (x : tfloat) : tfloat := if is_nan x then Fin 0 else x.

Definition columns_of (t : tensor2) : list nat := seq 0 (t_cols t).

(** The columns of a tensor other than column [c]. *)
Definition other_columns (t : tensor2) (c : nat) : list nat :=
  filter (fun c' => negb (c' =? c)%nat) (columns_of t).

(** [1 - mean over columns of f1_c], NaN columns counted as 0. *)
Definition f1_loss_spec (eps : Q) (y_true y_pred : tensor2) : tfloat :=
  fsub (Fin 1)
    (vmean (map (fun c => nan0 (f1_col eps (column y_true c) (column y_pred c)))
                (columns_of y_true))).

(** The total support [sum gp]. *)
Definition total_support (y_true : tensor2) : tfloat :=
  vsum (map (fun c => gp_col (column y_true c)) (columns_of y_true)).

(** [1 - sum_c f1_c * gp_c / sum gp], as the specification's formula reads,
    with no replacement of a NaN term. *)
Definition weighted_f1_loss_claimed (eps : Q) (y_true y_pred : tensor2) : tfloat :=
  fsub (Fin 1)
    (vsum (map (fun c =>
                  fdiv (fmul (f1_col eps (column y_true c) (column y_pred c))
                             (gp_col (column y_true c)))
                       (total_support y_true))
               (columns_of y_true))).

(** The same sum where a NaN term [f1_c * gp_c / sum gp] counts as 0. *)
Definition weighted_f1_loss_spec (eps : Q) (y_true y_pred : tensor2) : tfloat :=
  fsub (Fin 1)
    (vsum (map (fun c =>
                  nan0 (fdiv (fmul (f1_col eps (column y_true c) (column y_pred c))
                                   (gp_col (column y_true c)))
                             (total_support y_true)))
               (columns_of y_true))).

(** The combined loss as the specification describes it: the plain average
    of [weighted_f1_loss] over the COLUMN ranges of genres, instruments and
    moods. *)
Definition wf1_loss_p_spec (eps : Q) (y_true y_pred : tensor2) : tfloat :=
  fdiv
    (fadd
       (fadd
          (weighted_f1_loss eps (slice_cols 0 90 y_true) (slice_cols 0 90 y_pred))
          (weighted_f1_loss eps (slice_cols 90 202 y_true) (slice_cols 90 202 y_pred)))
       (weighted_f1_loss eps (slice_cols 202 248 y_true) (slice_cols 202 248 y_pred)))
    (Fin 3).

(* ------------------------------------------------------------------ *)
(** * The same sums on rationals *)
(* ------------------------------------------------------------------ *)

(** The rational behind a finite float. *)
Definition to_Q (x : tfloat) : Q :=
  match x with Fin q => q | _ => 0 end.


(** [x] is a finite number strictly between [lo] and [hi]. *)
Definition Qsum (qs : list Q) : Q := fold_left Qplus qs 0.

(** The column sums and the F1 of a column whose entries are all finite. *)
Definition tpQ (ts ps : list Q) : Q := Qsum (zip_with Qmult ts ps).
Definition fpQ (ts ps : list Q) : Q :=
  Qsum (zip_with (fun t p => (1 - t) * p) ts ps).
Definition fnQ (ts ps : list Q) : Q :=
  Qsum (zip_with (fun t p => t * (1 - p)) ts ps).

Definition f1_of (eps a b c : Q) : Q :=
  let p := a / (a + b + eps) in
  let r := a / (a + c + eps) in
  2 * p * r / (p + r + eps).

Definition f1Q (eps : Q) (ts ps : list Q) : Q :=
  f1_of eps (tpQ ts ps) (fpQ ts ps) (fnQ ts ps).

(** Column [c] of a tensor of finite entries, and its F1 and support. *)
Definition colQ (t : tensor2) (c : nat) : list Q := map to_Q (column t c).
Definition f1_colQ (eps : Q) (y_true y_pred : tensor2) (c : nat) : Q :=
  f1Q eps (colQ y_true c) (colQ y_pred c).
Definition support_colQ (y_true : tensor2) (c : nat) : Q := Qsum (colQ y_true c).
Definition total_supportQ (y_true : tensor2) : Q :=
  Qsum (map (support_colQ y_true) (columns_of y_true)).

(** Entrywise conditions on a tensor. *)
Definition all_entries (P : tfloat -> Prop) (t : tensor2) : Prop :=
  Forall (Forall P) (t_rows t).

(* ------------------------------------------------------------------ *)
(** * The Keras graph *)
(* ------------------------------------------------------------------ *)

Module Keras.

Inductive activation : Type := Relu | Sigmoid | Linear.

(** A symbolic Keras tensor: the layer that produced it and that layer's
    inputs.  Every [Dense] carries the number it got when it was created,
    which is what tells two dense layers (and their weights) apart. *)
Unset Elimination Schemes.
Inductive node : Type :=
| Input (pos : nat) (width : nat)
| Concatenate (xs : list node)
| Dense (id : nat) (units : nat) (act : activation) (x : node)
| Activation (act : activation) (x : node)
| Dropout (rate : Q) (x : node)
| Add (xs : list node).
Set Elimination Schemes.

(** [t.shape[1]]. *)
Fixpoint width (t : node) : nat :=
  match t with
  | Input _ w => w
  | Concatenate xs => list_sum (map width xs)
  | Dense _ units _ _ => units
  | Activation _ x => width x
  | Dropout _ x => width x
  | Add xs => match xs with x :: _ => width x | [] => O end
  end.

(** Python's [int] of a rational: truncation towards zero. *)
Definition py_int (q : Q) : Z := Z.quot (Qnum q) (Zpos (Qden q)).

(** [int((a + b) * 1.2)].  The literal [1.2] is read as the rational 6/5;
    for the widths of this script the nearest double gives the same
    integer. *)
Definition scaled_units (a b : nat) : nat :=
  Z.to_nat (py_int (inject_Z (Z.of_nat (a + b)) * (12 # 10))).

(** Graph construction threads the count of dense layers created so far and
    fails where Python would raise (an index out of range). *)
Definition build (A : Type) : Type := nat -> option (A * nat).

Definition ret {A : Type} (a : A) : build A := fun n => Some (a, n).
Definition bind {A B : Type} (m : build A) (k : A -> build B) : build B :=
  fun n => match m n with
           | Some (a, n') => k a n'
           | None => None
           end.
Definition index {A : Type} (xs : list A) (i : nat) : build A :=
  fun n => match nth_error xs i with
           | Some a => Some (a, n)
           | None => None
           end.

Notation "x <- m ;; k" := (bind m (fun x => k))
  (at level 61, m at next level, right associativity).

(** [Dense(units, activation=act)(x)]: a new layer applied to [x]. *)
Definition dense (units : nat) (act : activation) (x : node) : build node :=
  fun n => Some (Dense n units act x, S n).

(** [for i in range: acc += [body i]]. *)
Fixpoint for_each (range : list nat) (body : nat -> build node)
  : build (list node) :=
  match range with
  | [] => ret []
  | i :: rest =>
      layer <- body i ;;
      more <- for_each rest body ;;
      ret (layer :: more)
  end.

(** The first loop of [block], lines 105-111. *)
Definition first_part (inputs : list node) : build (list node) :=
  for_each (seq 0 3) (fun i =>
    a <- index inputs i ;;
    b <- index inputs (i + 3) ;;
    let layer := Concatenate [a; b] in
    dense (scaled_units (width a) (width b)) Relu layer).

(** Lines 113-116. *)
Definition second_part (first_part : list node) : build node :=
  let layer := Concatenate first_part in
  layer <- dense 400 Linear layer ;;
  let layer := Activation Relu layer in
  ret (Dropout (1 # 10) layer).

(** The second loop, lines 118-124. *)
Definition last_part (inputs : list node) (act : activation)
  (second_part : node) : build (list node) :=
  for_each (seq 0 3) (fun i =>
    a <- index inputs i ;;
    layer <- dense (width a) Linear second_part ;;
    let layer := Add [a; layer] in
    ret (Activation act layer)).

Definition block (inputs : list node) (act : activation) : build (list node) :=
  first_part <- first_part inputs ;;
  second_part <- second_part first_part ;;
  last_part inputs act second_part.

Definition input_layers : list node :=
  [Input 0 90; Input 1 112; Input 2 46; Input 3 18; Input 4 15; Input 5 8].

Definition paired_input : build (list node) :=
  i0 <- index input_layers 0 ;; i3 <- index input_layers 3 ;;
  i1 <- index input_layers 1 ;; i4 <- index input_layers 4 ;;
  i2 <- index input_layers 2 ;; i5 <- index input_layers 5 ;;
  ret [Concatenate [i0; i3]; Concatenate [i1; i4]; Concatenate [i2; i5]].

(** Lines 128-133: the two stacked blocks and the concatenated output. *)
Definition build_model : build node :=
  paired <- paired_input ;;
  b <- block input_layers Relu ;;
  b <- block (b ++ paired) Sigmoid ;;
  ret (Concatenate b).

(** The forward pass of the graph on one sample.  [feed] holds the six input
    vectors of the sample, [kernel id k j] and [bias id j] are the weights
    of dense layer [id], and [sigmoid] is the logistic function, which has
    no rational values and is left to the caller.  Dropout is the identity
    outside training. *)
Section Forward.

Variable sigmoid : Q -> Q.
Variable kernel : nat -> nat -> nat -> Q.
Variable bias : nat -> nat -> Q.

Definition relu (x : Q) : Q := if Qle_bool 0 x then x else 0.

Definition apply_activation (act : activation) (x : Q) : Q :=
  match act with
  | Relu => relu x
  | Sigmoid => sigmoid x
  | Linear => x
  end.

Definition dot (id j : nat) (v : list Q) : Q :=
  fold_left Qplus
    (zip_with (fun k x => x * kernel id k j) (seq 0 (length v)) v) 0.

Fixpoint forward (feed : list (list Q)) (t : node) : list Q :=
  match t with
  | Input pos _ => nth pos feed []
  | Concatenate xs => concat (map (forward feed) xs)
  | Dense id units act x =>
      let v := forward feed x in
      map (fun j => apply_activation act (dot id j v + bias id j)) (seq 0 units)
  | Activation act x => map (apply_activation act) (forward feed x)
  | Dropout _ x => forward feed x
  | Add xs =>
      match map (forward feed) xs with
      | [] => []
      | v :: vs => fold_left (zip_with Qplus) vs v
      end
  end.

End Forward.

(** The shape conditions under which Keras accepts a graph fed with
    vectors of lengths [widths]: an input is fed its declared width and the
    operands of an [Add] have one width. *)
Fixpoint well_shaped (widths : list nat) (t : node) : bool :=
  match t with
  | Input pos w =>
      match nth_error widths pos with
      | Some w' => Nat.eqb w' w
      | None => false
      end
  | Concatenate xs => forallb (well_shaped widths) xs
  | Dense _ _ _ x => well_shaped widths x
  | Activation _ x => well_shaped widths x
  | Dropout _ x => well_shaped widths x
  | Add xs =>
      forallb (well_shaped widths) xs &&
      match xs with
      | [] => true
      | x :: rest => forallb (fun y => Nat.eqb (width y) (width x)) rest
      end
  end.

Definition model_outputs : node :=
  match build_model O with
  | Some (out, _) => out
  | None => Concatenate []
  end.

End Keras.

(* ------------------------------------------------------------------ *)
(** * Feature tables and the splitter *)
(* ------------------------------------------------------------------ *)

(** A 64-bit signed integer: the type of the labels of an integer pandas
    index and of the integer arrays that the prediction loop concatenates
    and writes. *)
Definition is_int64 (z : Z) : bool := ((- 2 ^ 63 <=? z) && (z <? 2 ^ 63))%Z.

Record int64 : Type :=
  mkInt64 { int64_val : Z; int64_ok : is_int64 int64_val = true }.

(** A pandas frame of numbers with an integer index, as [read_csv] builds
    it from a file whose first column holds integer identifiers: the row
    labels, the column count and the rows. *)
Record dataframe : Type :=
  mkDF { df_index : list int64; df_cols : nat; df_rows : list (list Q) }.

Definition wf_frame (d : dataframe) : Prop :=
  length (df_index d) = length (df_rows d) /\
  Forall (fun r => length r = df_cols d) (df_rows d).

(** [data.iloc[:, range(lo, hi)]]: a new frame with the same row labels;
    pandas raises when a position is past the last column. *)
Definition iloc_cols (lo hi : nat) (data : dataframe) : option dataframe :=
  if hi <=? df_cols data
  then Some (mkDF (df_index data) (hi - lo) (map (py_slice lo hi) (df_rows data)))
  else None.

Definition group_ranges : list (nat * nat) :=
  [(0, 90); (90, 202); (202, 248); (248, 266); (266, 281); (281, 289)]%nat.

Fixpoint splitter_loop (ranges : list (nat * nat)) (data : dataframe)
  (x_data : list dataframe) : option (list dataframe) :=
  match ranges with
  | [] => Some x_data
  | (lo, hi) :: rest =>
      match iloc_cols lo hi data with
      | Some part => splitter_loop rest data (x_data ++ [part])
      | None => None
      end
  end.

Definition splitter (data : dataframe) : option (list dataframe) :=
  splitter_loop group_ranges data [].

(** The frame that line 18 appends for one column range, when the range
    lies within the table. *)
Definition group_of (data : dataframe) (rng : nat * nat) : dataframe :=
  mkDF (df_index data) (snd rng - fst rng)%nat
       (map (py_slice (fst rng) (snd rng)) (df_rows data)).

(* ------------------------------------------------------------------ *)
(** * The chunked prediction loop *)
(* ------------------------------------------------------------------ *)

(** [np.array_split(xs, n)]: [n] consecutive sections, the first
    [len(xs) mod n] of them one longer than the others. *)
Definition section_sizes (total n : nat) : list nat :=
  (repeat (total / n + 1) (total mod n) ++ repeat (total / n) (n - total mod n))%nat.

Fixpoint split_sections {A : Type} (sizes : list nat) (xs : list A)
  : list (list A) :=
  match sizes with
  | [] => []
  | k :: rest => firstn k xs :: split_sections rest (skipn k xs)
  end.

Definition array_split {A : Type} (xs : list A) (n : nat) : list (list A) :=
  split_sections (section_sizes (length xs) n) xs.

(** [np.array_split] of a frame cuts its rows, each piece keeping its labels. *)
Definition frame_split (d : dataframe) (n : nat) : list dataframe :=
  zip_with (fun idx rows => mkDF idx (df_cols d) rows)
           (array_split (df_index d) n) (array_split (df_rows d) n).

Inductive line : Type :=
| Header (names : list String.string)
| Row (cells : list Z).

Definition nb_split : nat := 100.

Section Inference.

Variable sigmoid : Q -> Q.
Variable kernel : nat -> nat -> nat -> Q.
Variable bias : nat -> nat -> Q.

(** One feed per sample: row [r] of each of the input frames. *)
Definition sample_feeds (xs : list dataframe) : list (list (list Q)) :=
  match xs with
  | [] => []
  | d :: _ =>
      map (fun r => map (fun part => nth r (df_rows part) []) xs)
          (seq 0 (length (df_rows d)))
  end.

(** [model.predict]: the forward pass on every sample of the batch, in
    order.  Keras raises (a [ValueError]) when the batch holds no sample. *)
Definition predict (xs : list dataframe) : option (list (list Q)) :=
  match sample_feeds xs with
  | [] => None
  | feeds =>
      Some (map (fun feed =>
                   Keras.forward sigmoid kernel bias feed Keras.model_outputs)
                feeds)
  end.

(** [(res > 0.5).astype(int)] on one entry. *)
Definition threshold (o : Q) : Z := if Qle_bool o (1 # 2) then 0%Z else 1%Z.

(** The body of the loop of lines 195-204 for chunk [i]: the rows it
    appends to the file. *)
Definition chunk_rows (index_split : list (list int64)) (i : nat)
  (x_test_split : dataframe) : option (list line) :=
  match splitter x_test_split with
  | None => None
  | Some x_test_split =>
      match predict x_test_split with
      | None => None
      | Some res =>
          let res := map (map threshold) res in
          match nth_error index_split i with
          | None => None
          | Some ids =>
              (* reshape(res.shape[0], 1) needs as many labels as rows; the
                 labels and the predictions are both int64 arrays, and so
                 is their concatenation *)
              if length ids =? length res
              then Some (map Row (zip_with cons (map int64_val ids) res))
              else None
          end
      end
  end.

Fixpoint write_chunks (index_split : list (list int64))
  (chunks : list (nat * dataframe)) (file : list line) : option (list line) :=
  match chunks with
  | [] => Some file
  | (i, x_test_split) :: rest =>
      match chunk_rows index_split i x_test_split with
      | Some rows => write_chunks index_split rest (file ++ rows)
      | None => None
      end
  end.

Definition enumerate {A : Type} (xs : list A) : list (nat * A) :=
  combine (seq 0 (length xs)) xs.

(** Lines 186-204: the content of [pred_y.csv].  [label_names] are the
    column names of the training labels. *)
Definition write_predictions (label_names : list String.string)
  (x_test : dataframe) : option (list line) :=
  let index_split := array_split (df_index x_test) nb_split in
  let file := [Header ("ChallengeID"%string :: label_names)] in
  write_chunks index_split (enumerate (frame_split x_test nb_split)) file.

(** The model's 248 outputs for one row of the table, cut into the six
    groups. *)
Definition outputs_of (features : list Q) : list Q :=
  Keras.forward sigmoid kernel bias
    (map (fun '(lo, hi) => py_slice lo hi features) group_ranges)
    Keras.model_outputs.

(** What the loop is meant to write for one sample. *)
Definition sample_row (id : Z) (features : list Q) : list Z :=
  id :: map threshold (outputs_of features).

End Inference.

(* ------------------------------------------------------------------ *)
(** * Training with early stopping *)
(* ------------------------------------------------------------------ *)

Module Training.

(** The settings passed in lines 140-153 of [main.py]. *)
Definition epochs : nat := 600.
Definition patience : nat := 8.
Definition min_delta : Q := 0.

(** What the monitor remembers between epochs: the best validation loss so
    far, the epoch whose parameters were snapshotted with it, and the count
    of epochs since. *)
Record monitor : Type :=
  mkMonitor { best : option Q; best_epoch : nat; wait : nat }.

Definition init : monitor := mkMonitor None O O.

(** Modelled from the spec: the improvement test of the early-stopping
    callback, which lives in Keras and not in [main.py].  An epoch improves
    when its validation loss is below the best one by more than
    [min_delta]; the first epoch always does. *)
Definition improved (m : monitor) (loss : Q) : bool :=
  match best m with
  | None => true
  | Some b => negb (Qle_bool (b - loss) min_delta)
  end.

(** Modelled from the spec: the monitor's step at the end of an epoch.  An
    improvement takes a snapshot and resets the count, anything else adds
    one to it. *)
Definition on_epoch_end (m : monitor) (epoch : nat) (loss : Q) : monitor :=
  if improved m loss
  then mkMonitor (Some loss) epoch O
  else mkMonitor (best m) (best_epoch m) (S (wait m)).

(** How training ended: the last epoch that ran, whether early stopping cut
    it short, and the epoch whose snapshot the parameters are restored to. *)
Record outcome : Type :=
  mkOutcome { halted_at : nat; early_stopped : bool; restored : nat }.

(** Modelled from the spec: the epoch loop of [model.fit] with the callback,
    which lives in Keras and not in [main.py].  Epochs are numbered from 1;
    [val_loss e] is the validation loss measured after epoch [e].  Training
    ends when the count reaches [patience] or after [epochs] epochs, and in
    both cases the best snapshot is restored. *)
Fixpoint fit_loop (val_loss : nat -> Q) (remaining epoch : nat) (m : monitor)
  : outcome :=
  match remaining with
  | O => mkOutcome (epoch - 1) false (best_epoch m)
  | S remaining' =>
      let m' := on_epoch_end m epoch (val_loss epoch) in
      if patience <=? wait m'
      then mkOutcome epoch true (best_epoch m')
      else fit_loop val_loss remaining' (S epoch) m'
  end.

Definition fit (val_loss : nat -> Q) : outcome :=
  fit_loop val_loss epochs 1 init.

(** Epoch [e] improves on every epoch before it. *)
Definition improves (val_loss : nat -> Q) (e : nat) : bool :=
  forallb (fun e' => negb (Qle_bool (val_loss e' - val_loss e) min_delta))
          (seq 1 (e - 1)).

(** The [patience] epochs ending with [e] all ran and none of them
    improved. *)
Definition stale_at (val_loss : nat -> Q) (e : nat) : bool :=
  (patience <=? e)%nat &&
  forallb (fun e' => negb (improves val_loss e'))
          (seq (e + 1 - patience) patience).

(** What the monitor holds after epochs [1..e] when training has not been
    halted: the first epoch with the lowest validation loss, that loss, and
    the number of epochs since. *)
Definition tracked (val_loss : nat -> Q) (e : nat) (m : monitor) : Prop :=
  best m = Some (val_loss (best_epoch m)) /\
  (1 <= best_epoch m <= e)%nat /\
  wait m = (e - best_epoch m)%nat /\
  (wait m < patience)%nat /\
  improves val_loss (best_epoch m) = true /\
  (forall e', (best_epoch m < e' <= e)%nat -> improves val_loss e' = false) /\
  (forall e', (1 <= e' <= e)%nat -> val_loss (best_epoch m) <= val_loss e').

(** A run of twenty epochs' worth of losses that improve up to epoch 5 and
    stay at 6 from then on. *)
Definition plateau_after_5 (e : nat) : Q :=
  if (e <=? 5)%nat then inject_Z (10 - Z.of_nat e) else 6.

End Training.

(* ------------------------------------------------------------------ *)
(** * Sample data for the concrete checks *)
(* ------------------------------------------------------------------ *)

(** A test table of three samples in the 289-column layout. *)
Definition three_samples : dataframe :=
  mkDF [mkInt64 11 eq_refl; mkInt64 12 eq_refl; mkInt64 13 eq_refl]
       289 (repeat (repeat 0 289) 3).


(* ================================================================== *)
(** * Properties of the Keras graph *)
(* ================================================================== *)

Module KerasFacts.
Import Keras.
Local Open Scope nat_scope.

(** Truncation and floor agree on the products that [block] forms. *)
Lemma scaled_units_floor (a b : nat) :
  Z.of_nat (scaled_units a b)
  = Qfloor ((12 # 10) * inject_Z (Z.of_nat (a + b)))%Q.
Proof.
  unfold scaled_units, py_int, Qfloor.
  set (n := Z.of_nat (a + b)).
  assert (Hn : (0 <= n)%Z) by (subst n; lia).
  cbn [Qnum Qden inject_Z Qmult].
  rewrite Z2Nat.id.
  - replace (12 * n)%Z with (n * 12)%Z by lia.
    rewrite Z.quot_div_nonneg; [reflexivity | lia | lia].
  - apply Z.quot_pos; lia.
Qed.

Lemma scaled_units_div (a b : nat) :
  scaled_units a b = (12 * (a + b) / 10)%nat.
Proof.
  apply Nat2Z.inj.
  rewrite scaled_units_floor, Nat2Z.inj_div.
  unfold Qfloor. cbn [Qnum Qden inject_Z Qmult].
  f_equal; lia.
Qed.

(** A list with six entries or more, opened up. *)
Lemma six_inputs (inputs : list node) :
  (6 <= length inputs)%nat ->
  exists i0 i1 i2 i3 i4 i5 rest, inputs = i0 :: i1 :: i2 :: i3 :: i4 :: i5 :: rest.
Proof.
  intros H.
  do 6 (destruct inputs as [|? inputs]; [cbn in H; lia|]).
  repeat eexists.
Qed.

(** CLAIM C2 (as amended): in the first step of [block], for each
    [i] in [{0,1,2}] the dense layer applied to the concatenation of
    [inputs[i]] and [inputs[i+3]] has ReLU activation and width
    [int(1.2 * (width_i + width_(i+3)))], the product truncated to an
    integer (its floor) and not rounded to the nearest one. *)
Theorem first_part_width_truncated (inputs : list node) (n i : nat) (a b : node) :
  (6 <= length inputs)%nat ->
  (i < 3)%nat ->
  nth_error inputs i = Some a ->
  nth_error inputs (i + 3) = Some b ->
  exists fp,
    first_part inputs n = Some (fp, (n + 3)%nat) /\
    nth_error fp i
    = Some (Dense (n + i) (scaled_units (width a) (width b)) Relu
                  (Concatenate [a; b])) /\
    Z.of_nat (scaled_units (width a) (width b))
    = Qfloor ((12 # 10) * inject_Z (Z.of_nat (width a + width b)))%Q /\
    scaled_units (width a) (width b) = (12 * (width a + width b) / 10)%nat.
Proof.
  intros Hlen Hi Ha Hb.
  destruct (six_inputs inputs Hlen) as (i0 & i1 & i2 & i3 & i4 & i5 & rest & ->).
  eexists. split; [|split; [|split]].
  - unfold first_part, bind, index, dense, ret. cbn.
    replace (n + 3)%nat with (S (S (S n))) by lia. reflexivity.
  - destruct i as [|[|[|i]]]; [| | |lia]; cbn in Ha, Hb;
      injection Ha as <-; injection Hb as <-; cbn;
      repeat f_equal; lia.
  - apply scaled_units_floor.
  - apply scaled_units_div.
Qed.

Lemma first_part_width_truncated_witness :
  exists fp,
    first_part input_layers 0 = Some (fp, 3%nat) /\
    nth_error fp 0
    = Some (Dense 0 (scaled_units 90 18) Relu
                  (Concatenate [Input 0 90; Input 3 18])) /\
    Z.of_nat (scaled_units 90 18)
    = Qfloor ((12 # 10) * inject_Z (Z.of_nat (90 + 18)))%Q /\
    scaled_units 90 18 = (12 * (90 + 18) / 10)%nat.
Proof.
  apply (first_part_width_truncated input_layers 0 0 (Input 0 90) (Input 3 18)).
  - cbn; lia.
  - lia.
  - reflexivity.
  - reflexivity.
Defined.

(** C2 as the specification words it fails on the script's own inputs: the
    dense layers over the summed widths 108 and 54 get 129 and 64 units,
    where rounding to the nearest integer would give 130 and 65. *)
Lemma first_part_width_not_rounded :
  exists fp d0 d2,
    first_part input_layers 0 = Some (fp, 3%nat) /\
    nth_error fp 0 = Some d0 /\ nth_error fp 2 = Some d2 /\
    width d0 = 129%nat /\ width d2 = 64%nat /\
    Qround_half_even ((12 # 10) * inject_Z (Z.of_nat (90 + 18)))%Q = 130%Z /\
    Qround_half_even ((12 # 10) * inject_Z (Z.of_nat (46 + 8)))%Q = 65%Z /\
    Z.of_nat (width d0)
    <> Qround_half_even ((12 # 10) * inject_Z (Z.of_nat (90 + 18)))%Q /\
    Z.of_nat (width d2)
    <> Qround_half_even ((12 # 10) * inject_Z (Z.of_nat (46 + 8)))%Q.
Proof.
  do 3 eexists.
  split; [vm_compute; reflexivity|].
  split; [reflexivity|]. split; [reflexivity|].
  repeat split; try (vm_compute; reflexivity); vm_compute; discriminate.
Qed.

(** CLAIM C8: for each [i] in [{0,1,2}], output [i] of [block] has the width
    of input [i]; it is the block's activation [act] applied to the sum of
    the ORIGINAL [inputs[i]] and a linear dense projection, of that same
    width, of the dropout output shared by the three groups.  The sum is
    taken first and the activation after it. *)
Theorem block_residual_output (inputs : list node) (act : activation)
  (n i : nat) (a : node) :
  6 <= length inputs ->
  i < 3 ->
  nth_error inputs i = Some a ->
  exists fp outs,
    let shared := Dropout (1 # 10)
                    (Activation Relu (Dense (n + 3) 400 Linear (Concatenate fp))) in
    let projection := Dense (n + 4 + i) (width a) Linear shared in
    let out := Activation act (Add [a; projection]) in
    first_part inputs n = Some (fp, n + 3) /\
    block inputs act n = Some (outs, n + 7) /\
    length outs = 3 /\
    nth_error outs i = Some out /\
    width projection = width a /\
    width out = width a /\
    forall sigmoid kernel bias feed,
      forward sigmoid kernel bias feed out
      = map (apply_activation sigmoid act)
            (zip_with Qplus (forward sigmoid kernel bias feed a)
                            (forward sigmoid kernel bias feed projection)).
Proof.
  intros Hlen Hi Ha.
  destruct (six_inputs inputs Hlen) as (i0 & i1 & i2 & i3 & i4 & i5 & rest & ->).
  do 2 eexists. cbv zeta.
  split; [|split; [|split; [|split; [|split; [|split]]]]].
  - unfold first_part, bind, index, dense, ret. cbn.
    replace (n + 3) with (S (S (S n))) by lia. reflexivity.
  - unfold block, first_part, second_part, last_part, bind, index, dense, ret.
    cbn.
    replace (n + 7) with (S (S (S (S (S (S (S n))))))) by lia. reflexivity.
  - reflexivity.
  - destruct i as [|[|[|i]]]; [| | |lia]; cbn in Ha; injection Ha as <-; cbn;
      repeat f_equal; lia.
  - reflexivity.
  - reflexivity.
  - intros. reflexivity.
Qed.

Lemma block_residual_output_witness :
  exists fp outs,
    let shared := Dropout (1 # 10)
                    (Activation Relu (Dense 3 400 Linear (Concatenate fp))) in
    let projection := Dense 5 112 Linear shared in
    let out := Activation Relu (Add [Input 1 112; projection]) in
    first_part input_layers 0 = Some (fp, 3) /\
    block input_layers Relu 0 = Some (outs, 7) /\
    length outs = 3 /\
    nth_error outs 1 = Some out /\
    width projection = 112 /\
    width out = 112 /\
    forall sigmoid kernel bias feed,
      forward sigmoid kernel bias feed out
      = map (apply_activation sigmoid Relu)
            (zip_with Qplus (forward sigmoid kernel bias feed (Input 1 112))
                            (forward sigmoid kernel bias feed projection)).
Proof.
  apply (block_residual_output input_layers Relu 0 1 (Input 1 112)).
  - cbn; lia.
  - lia.
  - reflexivity.
Defined.

End KerasFacts.

(* ================================================================== *)
(** * Properties of the splitter *)
(* ================================================================== *)

Module SplitterFacts.
Local Open Scope nat_scope.

Lemma py_slice_length {A : Type} (lo hi : nat) (xs : list A) :
  hi <= length xs -> length (py_slice lo hi xs) = hi - lo.
Proof.
  intros H. unfold py_slice.
  rewrite length_firstn, length_skipn. lia.
Qed.

Lemma py_slice_nth {A : Type} (lo hi c : nat) (xs : list A) (d : A) :
  c < hi - lo -> nth c (py_slice lo hi xs) d = nth (lo + c) xs d.
Proof.
  intros H. unfold py_slice.
  rewrite nth_firstn.
  destruct (Nat.ltb_spec c (hi - lo)); [|lia].
  apply nth_skipn.
Qed.

Lemma splitter_loop_all (data : dataframe) (ranges : list (nat * nat))
  (x_data : list dataframe) :
  Forall (fun rng => snd rng <= df_cols data) ranges ->
  splitter_loop ranges data x_data = Some (x_data ++ map (group_of data) ranges).
Proof.
  intros H. revert x_data.
  induction H as [|[lo hi] ranges Hhi _ IH]; intros x_data; cbn.
  - now rewrite app_nil_r.
  - unfold iloc_cols. cbn in Hhi.
    destruct (Nat.leb_spec hi (df_cols data)); [|lia].
    rewrite IH, <- app_assoc. reflexivity.
Qed.

Lemma splitter_some (data : dataframe) :
  289 <= df_cols data ->
  splitter data = Some (map (group_of data) group_ranges).
Proof.
  intros H. unfold splitter.
  rewrite splitter_loop_all; [reflexivity|].
  unfold group_ranges. repeat constructor; cbn; lia.
Qed.

Lemma splitter_narrow (data : dataframe) :
  df_cols data < 289 -> splitter data = None.
Proof.
  intros Hlt. unfold splitter, group_ranges. cbn [splitter_loop].
  unfold iloc_cols.
  repeat match goal with
  | |- context [?hi <=? df_cols data] =>
      destruct (Nat.leb_spec hi (df_cols data)); cbn [splitter_loop app]
  end; try reflexivity.
  lia.
Qed.

Lemma splitter_some_cols (data : dataframe) (x_data : list dataframe) :
  splitter data = Some x_data -> 289 <= df_cols data.
Proof.
  intros Hsome.
  destruct (Nat.lt_ge_cases (df_cols data) 289) as [H|H]; [|exact H].
  rewrite splitter_narrow in Hsome by exact H. discriminate.
Qed.

Lemma group_of_wf (data : dataframe) (lo hi : nat) :
  wf_frame data -> hi <= df_cols data -> wf_frame (group_of data (lo, hi)).
Proof.
  intros [Hidx Hrows] Hhi. split; cbn.
  - now rewrite length_map.
  - apply Forall_map. eapply Forall_impl; [|exact Hrows].
    cbn. intros r Hr. apply py_slice_length. lia.
Qed.

(** CLAIM C7: on a table of N rows and at least 289 columns, [splitter]
    returns exactly six tables; table [k] has the N rows of the input in
    the same order and with the same row labels, restricted to the k-th of
    the column ranges [0,90), [90,202), [202,248), [248,266), [266,281),
    [281,289); the column counts are [90,112,46,18,15,8], which add up to
    289.  The result is computed from the input alone, which is left as it
    was. *)
Theorem splitter_six_groups (data : dataframe) :
  wf_frame data ->
  289 <= df_cols data ->
  exists x_data,
    splitter data = Some x_data /\
    length x_data = 6 /\
    map df_cols x_data = [90; 112; 46; 18; 15; 8] /\
    list_sum (map df_cols x_data) = 289 /\
    Forall (fun part =>
              wf_frame part /\
              df_index part = df_index data /\
              length (df_rows part) = length (df_rows data)) x_data /\
    forall k lo hi part,
      nth_error group_ranges k = Some (lo, hi) ->
      nth_error x_data k = Some part ->
      df_cols part = hi - lo /\
      df_rows part = map (py_slice lo hi) (df_rows data) /\
      forall r row c,
        nth_error (df_rows data) r = Some row ->
        c < hi - lo ->
        exists row',
          nth_error (df_rows part) r = Some row' /\
          length row' = hi - lo /\
          nth c row' 0%Q = nth (lo + c) row 0%Q.
Proof.
  intros Hwf Hcols.
  exists (map (group_of data) group_ranges).
  split; [now apply splitter_some|].
  split; [reflexivity|]. split; [reflexivity|]. split; [reflexivity|].
  split.
  - unfold group_ranges. cbn [map].
    repeat constructor; try (apply group_of_wf; [exact Hwf | lia]);
      cbn; now rewrite length_map.
  - intros k lo hi part Hk Hpart.
    rewrite nth_error_map, Hk in Hpart. cbn in Hpart. injection Hpart as <-.
    split; [reflexivity|]. split; [reflexivity|].
    intros r row c Hrow Hc. cbn.
    exists (py_slice lo hi row).
    rewrite nth_error_map, Hrow. split; [reflexivity|].
    assert (Hhi : hi <= df_cols data).
    { unfold group_ranges in Hk.
      do 6 (destruct k as [|k]; [cbn in Hk; injection Hk as <- <-; lia|]).
      destruct k; discriminate. }
    assert (Hlen : length row = df_cols data).
    { destruct Hwf as [_ Hrows]. rewrite Forall_forall in Hrows.
      apply Hrows. eapply nth_error_In; eauto. }
    split; [apply py_slice_length; lia | now apply py_slice_nth].
Qed.

Lemma splitter_six_groups_witness :
  exists x_data,
    splitter three_samples = Some x_data /\
    length x_data = 6 /\
    map df_cols x_data = [90; 112; 46; 18; 15; 8] /\
    list_sum (map df_cols x_data) = 289.
Proof.
  assert (Hwf : wf_frame three_samples) by (split; [reflexivity | repeat constructor]).
  assert (Hcols : 289 <= df_cols three_samples) by (cbn; lia).
  destruct (splitter_six_groups three_samples Hwf Hcols)
    as (x_data & H1 & H2 & H3 & H4 & _).
  exists x_data. repeat split; assumption.
Defined.

End SplitterFacts.

(* ================================================================== *)
(** * The losses, column by column *)
(* ================================================================== *)

Module ColumnFacts.
Local Open Scope nat_scope.

Lemma zip_with_length {A B C : Type} (f : A -> B -> C) (xs : list A) (ys : list B) :
  length (zip_with f xs ys) = Nat.min (length xs) (length ys).
Proof.
  revert ys. induction xs as [|x xs IH]; intros [|y ys]; cbn; auto.
Qed.

Lemma zip_with_nth {A B C : Type} (f : A -> B -> C) (xs : list A) (ys : list B)
  (c : nat) (da : A) (db : B) (dc : C) :
  c < length xs -> c < length ys ->
  nth c (zip_with f xs ys) dc = f (nth c xs da) (nth c ys db).
Proof.
  revert ys c. induction xs as [|x xs IH]; intros [|y ys] [|c]; cbn; intros;
    try lia; auto.
  apply IH; lia.
Qed.

Lemma zip_with_map {A B C D : Type} (f : A -> B -> C) (g : D -> A) (h : D -> B)
  (l : list D) :
  zip_with f (map g l) (map h l) = map (fun x => f (g x) (h x)) l.
Proof.
  induction l as [|x l IH]; cbn; [reflexivity | now rewrite IH].
Qed.

Lemma zip_with_map_l {A A' B C : Type} (f : A' -> B -> C) (g : A -> A')
  (xs : list A) (ys : list B) :
  zip_with f (map g xs) ys = zip_with (fun x y => f (g x) y) xs ys.
Proof.
  revert ys. induction xs as [|x xs IH]; intros [|y ys]; cbn; auto.
  now rewrite IH.
Qed.

Lemma zip_with_map_r {A B B' C : Type} (f : A -> B' -> C) (g : B -> B')
  (xs : list A) (ys : list B) :
  zip_with f xs (map g ys) = zip_with (fun x y => f x (g y)) xs ys.
Proof.
  revert ys. induction xs as [|x xs IH]; intros [|y ys]; cbn; auto.
  now rewrite IH.
Qed.

(** A list is the list of its entries. *)
Lemma map_nth_seq {A : Type} (l : list A) (d : A) :
  map (fun c => nth c l d) (seq 0 (length l)) = l.
Proof.
  induction l as [|x l IH]; cbn; [reflexivity|].
  f_equal. rewrite <- seq_shift, map_map. exact IH.
Qed.

(** The fold behind [K.sum(axis=0)], one column at a time. *)
Lemma fold_vadd_columns (n : nat) (rows : list vec) (acc : vec) :
  length acc = n ->
  Forall (fun r => length r = n) rows ->
  fold_left vadd rows acc
  = map (fun c => fold_left fadd (map (fun r => nth c r NaN) rows) (nth c acc NaN))
        (seq 0 n).
Proof.
  intros Hacc Hrows. revert acc Hacc.
  induction Hrows as [|r rows Hr _ IH]; intros acc Hacc; cbn.
  - subst n. symmetry. apply map_nth_seq.
  - rewrite IH.
    + apply map_ext_in. intros c Hc. apply in_seq in Hc.
      f_equal. unfold vadd. apply zip_with_nth; lia.
    + unfold vadd. rewrite zip_with_length. lia.
Qed.

Lemma sum_axis0_columns (t : tensor2) :
  wf_tensor t ->
  sum_axis0 t = map (fun c => vsum (column t c)) (columns_of t).
Proof.
  intros Hwf. unfold sum_axis0, columns_of, vsum, column.
  rewrite (fold_vadd_columns (t_cols t)); [|apply repeat_length|exact Hwf].
  apply map_ext_in. intros c Hc. apply in_seq in Hc.
  f_equal. apply nth_repeat_lt. lia.
Qed.

Lemma column_tmul (a b : tensor2) (c : nat) :
  wf_tensor a -> wf_tensor b -> t_cols a = t_cols b -> c < t_cols a ->
  column (tmul a b) c = zip_with fmul (column a c) (column b c).
Proof.
  unfold wf_tensor, column, tmul. cbn.
  intros Ha Hb Hcols Hc. rewrite <- Hcols in Hb.
  revert Ha Hb. generalize (t_rows b). generalize (t_rows a).
  induction l as [|ra rows_a IH]; intros [|rb rows_b] Ha Hb; cbn; auto.
  inversion Ha; inversion Hb; subst.
  f_equal; [|now apply IH].
  unfold vmul. apply zip_with_nth; lia.
Qed.

Lemma column_one_minus (a : tensor2) (c : nat) :
  wf_tensor a -> c < t_cols a ->
  column (one_minus a) c = map (fsub (Fin 1)) (column a c).
Proof.
  unfold wf_tensor, column, one_minus. cbn. intros Ha Hc.
  rewrite !map_map. apply map_ext_in. intros r Hr.
  rewrite Forall_forall in Ha. specialize (Ha r Hr).
  unfold ssub_v.
  rewrite (nth_indep _ NaN (fsub (Fin 1) NaN)) by (rewrite length_map; lia).
  apply map_nth.
Qed.

Lemma wf_tmul (a b : tensor2) :
  wf_tensor a -> wf_tensor b -> t_cols a = t_cols b -> wf_tensor (tmul a b).
Proof.
  unfold wf_tensor, tmul. cbn. intros Ha Hb Hcols. rewrite <- Hcols in Hb.
  revert Ha Hb. generalize (t_rows b). generalize (t_rows a).
  induction l as [|ra rows_a IH]; intros [|rb rows_b] Ha Hb; cbn; auto.
  inversion Ha; inversion Hb; subst. constructor; [|now apply IH].
  unfold vmul. rewrite zip_with_length. lia.
Qed.

Lemma wf_one_minus (a : tensor2) : wf_tensor a -> wf_tensor (one_minus a).
Proof.
  unfold wf_tensor, one_minus. cbn. intros Ha.
  apply Forall_map. eapply Forall_impl; [|exact Ha].
  cbn. intros r Hr. unfold ssub_v. now rewrite length_map.
Qed.

Section Columns.

Variable eps : Q.
Variables y_true y_pred : tensor2.
Hypothesis wf_true : wf_tensor y_true.
Hypothesis wf_pred : wf_tensor y_pred.
Hypothesis cols_eq : t_cols y_true = t_cols y_pred.

Lemma tp_vec_columns :
  tp_vec y_true y_pred = map (fun c => tp_col (column y_true c) (column y_pred c)) (columns_of y_true).
Proof.
  unfold tp_vec. rewrite sum_axis0_columns by now apply wf_tmul.
  unfold columns_of; cbn [t_cols tmul one_minus]. apply map_ext_in. intros c Hc. apply in_seq in Hc.
  unfold tp_col. rewrite column_tmul; auto; lia.
Qed.

Lemma fp_vec_columns :
  fp_vec y_true y_pred = map (fun c => fp_col (column y_true c) (column y_pred c)) (columns_of y_true).
Proof.
  unfold fp_vec.
  rewrite sum_axis0_columns by (apply wf_tmul; auto using wf_one_minus).
  unfold columns_of; cbn [t_cols tmul one_minus]. apply map_ext_in. intros c Hc. apply in_seq in Hc.
  unfold fp_col.
  rewrite column_tmul; auto using wf_one_minus; [|cbn; lia].
  rewrite column_one_minus by (auto; lia).
  now rewrite zip_with_map_l.
Qed.

Lemma fn_vec_columns :
  fn_vec y_true y_pred = map (fun c => fn_col (column y_true c) (column y_pred c)) (columns_of y_true).
Proof.
  unfold fn_vec.
  rewrite sum_axis0_columns by (apply wf_tmul; auto using wf_one_minus).
  unfold columns_of; cbn [t_cols tmul one_minus]. apply map_ext_in. intros c Hc. apply in_seq in Hc.
  unfold fn_col.
  rewrite column_tmul; auto using wf_one_minus; [|lia].
  rewrite column_one_minus by (auto; lia).
  now rewrite zip_with_map_r.
Qed.

Lemma p_den_columns :
  p_den eps y_true y_pred
  = map (fun c => fadd (fadd (tp_col (column y_true c) (column y_pred c)) (fp_col (column y_true c) (column y_pred c))) (Fin eps))
        (columns_of y_true).
Proof.
  unfold p_den, vadd_s, vadd.
  now rewrite tp_vec_columns, fp_vec_columns, zip_with_map, map_map.
Qed.

Lemma r_den_columns :
  r_den eps y_true y_pred
  = map (fun c => fadd (fadd (tp_col (column y_true c) (column y_pred c)) (fn_col (column y_true c) (column y_pred c))) (Fin eps))
        (columns_of y_true).
Proof.
  unfold r_den, vadd_s, vadd.
  now rewrite tp_vec_columns, fn_vec_columns, zip_with_map, map_map.
Qed.

Lemma p_vec_columns :
  p_vec eps y_true y_pred
  = map (fun c => precision_col eps (column y_true c) (column y_pred c)) (columns_of y_true).
Proof.
  unfold p_vec, vdiv.
  now rewrite tp_vec_columns, p_den_columns, zip_with_map.
Qed.

Lemma r_vec_columns :
  r_vec eps y_true y_pred
  = map (fun c => recall_col eps (column y_true c) (column y_pred c)) (columns_of y_true).
Proof.
  unfold r_vec, vdiv.
  now rewrite tp_vec_columns, r_den_columns, zip_with_map.
Qed.

Lemma f1_den_columns :
  f1_den eps y_true y_pred
  = map (fun c => fadd (fadd (precision_col eps (column y_true c) (column y_pred c))
                             (recall_col eps (column y_true c) (column y_pred c))) (Fin eps))
        (columns_of y_true).
Proof.
  unfold f1_den, vadd_s, vadd.
  now rewrite p_vec_columns, r_vec_columns, zip_with_map, map_map.
Qed.

Lemma f1_vector_columns :
  f1_vector eps y_true y_pred
  = map (fun c => f1_col eps (column y_true c) (column y_pred c)) (columns_of y_true).
Proof.
  unfold f1_vector, vdiv, vmul, smul_v.
  rewrite f1_den_columns, p_vec_columns, r_vec_columns.
  now rewrite map_map, !zip_with_map.
Qed.

Lemma gp_columns :
  sum_axis0 y_true = map (fun c => gp_col (column y_true c)) (columns_of y_true).
Proof. now apply sum_axis0_columns. Qed.

Lemma weighted_terms_columns :
  weighted_terms eps y_true y_pred
  = map (fun c => fdiv (fmul (f1_col eps (column y_true c) (column y_pred c)) (gp_col (column y_true c)))
                       (total_support y_true))
        (columns_of y_true).
Proof.
  unfold weighted_terms, vdiv_s, vmul, total_support.
  now rewrite f1_vector_columns, gp_columns, zip_with_map, map_map.
Qed.

Lemma f1_loss_columns : f1_loss eps y_true y_pred = f1_loss_spec eps y_true y_pred.
Proof.
  unfold f1_loss, f1_loss_spec, nan_to_zero.
  now rewrite f1_vector_columns, map_map.
Qed.

Lemma weighted_f1_loss_columns :
  weighted_f1_loss eps y_true y_pred = weighted_f1_loss_spec eps y_true y_pred.
Proof.
  unfold weighted_f1_loss, weighted_f1_loss_spec, nan_to_zero.
  now rewrite weighted_terms_columns, map_map.
Qed.

End Columns.

End ColumnFacts.

(* ================================================================== *)
(** * The losses against their description *)
(* ================================================================== *)

Module LossRefinement.
Import ColumnFacts.
Local Open Scope nat_scope.

(** CLAIM C5 (as amended): for tensors of one shape, [f1_loss] computes per
    column [tp], [fp], [fn] as the sums over the batch of [y_true*y_pred],
    [(1-y_true)*y_pred] and [y_true*(1-y_pred)], then [p = tp/(tp+fp+eps)],
    [r = tp/(tp+fn+eps)] and [f1 = 2pr/(p+r+eps)], counts a NaN column as 0
    and returns one minus the mean over the columns; [weighted_f1_loss]
    uses the same per-column values and returns one minus the sum over the
    columns of [f1_c*gp_c / sum gp], where a term that is NaN counts as 0. *)
Theorem losses_column_formulas (eps : Q) (y_true y_pred : tensor2) :
  wf_tensor y_true ->
  wf_tensor y_pred ->
  same_shape y_true y_pred ->
  let cols := columns_of y_true in
  let yt c := column y_true c in
  let yp c := column y_pred c in
  tp_vec y_true y_pred = map (fun c => tp_col (yt c) (yp c)) cols /\
  fp_vec y_true y_pred = map (fun c => fp_col (yt c) (yp c)) cols /\
  fn_vec y_true y_pred = map (fun c => fn_col (yt c) (yp c)) cols /\
  p_vec eps y_true y_pred = map (fun c => precision_col eps (yt c) (yp c)) cols /\
  r_vec eps y_true y_pred = map (fun c => recall_col eps (yt c) (yp c)) cols /\
  f1_vector eps y_true y_pred = map (fun c => f1_col eps (yt c) (yp c)) cols /\
  sum_axis0 y_true = map (fun c => gp_col (yt c)) cols /\
  f1_loss eps y_true y_pred = f1_loss_spec eps y_true y_pred /\
  weighted_f1_loss eps y_true y_pred = weighted_f1_loss_spec eps y_true y_pred.
Proof.
  intros Ht Hp [Hcols _]. cbv zeta.
  repeat split.
  - now apply tp_vec_columns.
  - now apply fp_vec_columns.
  - now apply fn_vec_columns.
  - now apply p_vec_columns.
  - now apply r_vec_columns.
  - now apply f1_vector_columns.
  - now apply gp_columns.
  - now apply f1_loss_columns.
  - now apply weighted_f1_loss_columns.
Qed.

Lemma losses_column_formulas_witness :
  f1_loss keras_epsilon single_positive_batch single_positive_batch
  = f1_loss_spec keras_epsilon single_positive_batch single_positive_batch /\
  weighted_f1_loss keras_epsilon single_positive_batch single_positive_batch
  = weighted_f1_loss_spec keras_epsilon single_positive_batch single_positive_batch.
Proof.
  assert (Hwf : wf_tensor single_positive_batch)
    by (repeat constructor).
  assert (Hshape : same_shape single_positive_batch single_positive_batch)
    by (split; reflexivity).
  destruct (losses_column_formulas keras_epsilon single_positive_batch
              single_positive_batch Hwf Hwf Hshape)
    as (_ & _ & _ & _ & _ & _ & _ & Hf1 & Hw).
  split; [exact Hf1 | exact Hw].
Defined.

(** C5 as the specification words it fails where no label has support: the
    formula [1 - sum_c f1_c*gp_c / sum gp] is then [1 - 0/0], not a number,
    while the code tests the terms for NaN and returns 1. *)
Lemma weighted_f1_loss_without_support :
  wf_tensor no_support_batch /\
  same_shape no_support_batch no_support_batch /\
  weighted_terms keras_epsilon no_support_batch no_support_batch = [NaN] /\
  weighted_f1_loss keras_epsilon no_support_batch no_support_batch = Fin 1 /\
  weighted_f1_loss_claimed keras_epsilon no_support_batch no_support_batch = NaN /\
  ~ feq (weighted_f1_loss keras_epsilon no_support_batch no_support_batch)
        (weighted_f1_loss_claimed keras_epsilon no_support_batch no_support_batch).
Proof.
  split; [repeat constructor|].
  split; [split; reflexivity|].
  split; [vm_compute; reflexivity|].
  split; [vm_compute; reflexivity|].
  split; [vm_compute; reflexivity|].
  vm_compute. exact (fun H => H).
Qed.

(** CLAIM C1: on a batch of one sample with 248 labels, all predicted
    exactly, [wf1_loss_p] is above 0.66 while the average of
    [weighted_f1_loss] over the three column ranges is below one millionth:
    the code cuts [y_true[slice(0, 90)]] along the batch, so its second and
    third terms see no row at all and are each 1. *)
Theorem wf1_loss_p_slices_the_batch :
  wf_tensor one_sample_batch /\
  slice_rows 90 202 one_sample_batch = mkT 248 [] /\
  slice_rows 202 248 one_sample_batch = mkT 248 [] /\
  weighted_f1_loss keras_epsilon (mkT 248 []) (mkT 248 []) = Fin 1 /\
  exists code spec : Q,
    wf1_loss_p keras_epsilon one_sample_batch one_sample_batch = Fin code /\
    wf1_loss_p_spec keras_epsilon one_sample_batch one_sample_batch = Fin spec /\
    (66 # 100 < code)%Q /\ (spec < 1 # 1000000)%Q /\ ~ (code == spec)%Q.
Proof.
  split.
  { constructor; [vm_compute; reflexivity | constructor]. }
  split; [reflexivity|]. split; [reflexivity|].
  split; [vm_compute; reflexivity|].
  do 2 eexists.
  split; [vm_compute; reflexivity|].
  split; [vm_compute; reflexivity|].
  split; [vm_compute; reflexivity|].
  split; [vm_compute; reflexivity|].
  vm_compute. discriminate.
Qed.

End LossRefinement.

(* ================================================================== *)
(** * Sums of rationals *)
(* ================================================================== *)

Module SumFacts.
Import ColumnFacts.

Lemma fold_Qplus_acc (qs : list Q) (a : Q) :
  fold_left Qplus qs a == a + Qsum qs.
Proof.
  unfold Qsum. revert a. induction qs as [|q qs IH]; intros a; cbn.
  - lra.
  - rewrite IH, (IH (0 + q)). lra.
Qed.

Lemma Qsum_cons (q : Q) (qs : list Q) : Qsum (q :: qs) == q + Qsum qs.
Proof.
  unfold Qsum at 1. cbn. rewrite fold_Qplus_acc. lra.
Qed.


Lemma Qsum_nonneg (qs : list Q) : Forall (fun q => 0 <= q) qs -> 0 <= Qsum qs.
Proof.
  induction 1 as [|q qs Hq _ IH]; [unfold Qsum; cbn [fold_left]; lra|].
  rewrite Qsum_cons. lra.
Qed.

(** A sum of nonnegative numbers that is zero has only zero terms. *)
Lemma Qsum_zero_terms (qs : list Q) :
  Forall (fun q => 0 <= q) qs -> Qsum qs == 0 -> Forall (fun q => q == 0) qs.
Proof.
  induction 1 as [|q qs Hq Hqs IH]; intros Hsum; [constructor|].
  rewrite Qsum_cons in Hsum.
  pose proof (Qsum_nonneg qs Hqs).
  constructor; [lra | apply IH; lra].
Qed.

Lemma Qsum_all_zero (qs : list Q) : Forall (fun q => q == 0) qs -> Qsum qs == 0.
Proof.
  induction 1 as [|q qs Hq _ IH]; [reflexivity|].
  rewrite Qsum_cons. lra.
Qed.



(** Sums of floats that are all finite. *)
Lemma fold_fadd_fin (qs : list Q) (a : Q) :
  fold_left fadd (map Fin qs) (Fin a) = Fin (fold_left Qplus qs a).
Proof.
  revert a. induction qs as [|q qs IH]; intros a; cbn; [reflexivity | apply IH].
Qed.

Lemma vsum_fin (qs : list Q) : vsum (map Fin qs) = Fin (Qsum qs).
Proof. apply fold_fadd_fin. Qed.

Lemma fin_vector (v : vec) : Forall is_fin v -> v = map Fin (map to_Q v).
Proof.
  induction 1 as [|x v Hx _ IH]; [reflexivity|].
  destruct x; try contradiction. cbn. now rewrite <- IH.
Qed.

Lemma zip_with_fin {f : tfloat -> tfloat -> tfloat} {g : Q -> Q -> Q}
  (Hfg : forall a b, f (Fin a) (Fin b) = Fin (g a b)) (ts ps : list Q) :
  zip_with f (map Fin ts) (map Fin ps) = map Fin (zip_with g ts ps).
Proof.
  revert ps. induction ts as [|t ts IH]; intros [|p ps]; cbn; auto.
  now rewrite Hfg, IH.
Qed.

Lemma tp_col_fin (ts ps : list Q) :
  tp_col (map Fin ts) (map Fin ps) = Fin (tpQ ts ps).
Proof.
  unfold tp_col, tpQ.
  rewrite (zip_with_fin (g := Qmult)) by reflexivity. apply vsum_fin.
Qed.

Lemma fp_col_fin (ts ps : list Q) :
  fp_col (map Fin ts) (map Fin ps) = Fin (fpQ ts ps).
Proof.
  unfold fp_col, fpQ.
  rewrite (zip_with_fin (g := fun t p => (1 - t) * p)) by reflexivity.
  apply vsum_fin.
Qed.

Lemma fn_col_fin (ts ps : list Q) :
  fn_col (map Fin ts) (map Fin ps) = Fin (fnQ ts ps).
Proof.
  unfold fn_col, fnQ.
  rewrite (zip_with_fin (g := fun t p => t * (1 - p))) by reflexivity.
  apply vsum_fin.
Qed.

Lemma gp_col_fin (ts : list Q) : gp_col (map Fin ts) = Fin (Qsum ts).
Proof. apply vsum_fin. Qed.

(** [tp + fp] is the sum of the predictions and [tp + fn] the sum of the
    labels. *)
Lemma tp_plus_fp (ts ps : list Q) :
  length ts = length ps -> tpQ ts ps + fpQ ts ps == Qsum ps.
Proof.
  unfold tpQ, fpQ. revert ps.
  induction ts as [|t ts IH]; intros [|p ps] Hlen; cbn in Hlen; try discriminate.
  - reflexivity.
  - cbn [zip_with]. rewrite !Qsum_cons.
    specialize (IH ps ltac:(lia)). lra.
Qed.

Lemma tp_plus_fn (ts ps : list Q) :
  length ts = length ps -> tpQ ts ps + fnQ ts ps == Qsum ts.
Proof.
  unfold tpQ, fnQ. revert ps.
  induction ts as [|t ts IH]; intros [|p ps] Hlen; cbn in Hlen; try discriminate.
  - reflexivity.
  - cbn [zip_with]. rewrite !Qsum_cons.
    specialize (IH ps ltac:(lia)). lra.
Qed.

Lemma zip_sum_nonneg (g : Q -> Q -> Q) (P R : Q -> Prop) (ts ps : list Q) :
  (forall t p, P t -> R p -> 0 <= g t p) ->
  Forall P ts -> Forall R ps -> 0 <= Qsum (zip_with g ts ps).
Proof.
  intros Hg Hts. revert ps.
  induction Hts as [|t ts Ht _ IH]; intros ps Hps;
    [unfold Qsum; cbn [zip_with fold_left]; lra|].
  destruct Hps as [|p ps Hp Hps]; [unfold Qsum; cbn [zip_with fold_left]; lra|].
  cbn [zip_with]. rewrite Qsum_cons.
  specialize (IH ps Hps). specialize (Hg t p Ht Hp). lra.
Qed.

Lemma zip_sum_zero (g : Q -> Q -> Q) (P R : Q -> Prop) (ts ps : list Q) :
  (forall t p, P t -> R p -> g t p == 0) ->
  Forall P ts -> Forall R ps -> Qsum (zip_with g ts ps) == 0.
Proof.
  intros Hg Hts. revert ps.
  induction Hts as [|t ts Ht _ IH]; intros ps Hps; [reflexivity|].
  destruct Hps as [|p ps Hp Hps]; [reflexivity|].
  cbn [zip_with]. rewrite Qsum_cons.
  specialize (IH ps Hps). specialize (Hg t p Ht Hp). lra.
Qed.

End SumFacts.

(* ================================================================== *)
(** * Bounds on the F1 of one column *)
(* ================================================================== *)

Module ColumnBounds.
Import ColumnFacts SumFacts.

Lemma Qdiv_cancel (a d : Q) : 0 < d -> (a / d) * d == a.
Proof. intros Hd. field. lra. Qed.

Lemma Qdiv_nonneg (a d : Q) : 0 <= a -> 0 < d -> 0 <= a / d.
Proof. intros Ha Hd. apply Qle_shift_div_l; [exact Hd | lra]. Qed.



Lemma Qis_zero_true (q : Q) : Qis_zero q = true <-> q == 0.
Proof. apply Qeq_bool_iff. Qed.

Lemma Qis_zero_false (q : Q) : ~ q == 0 -> Qis_zero q = false.
Proof.
  intros H. destruct (Qis_zero q) eqn:E; [|reflexivity].
  apply Qis_zero_true in E. contradiction.
Qed.

Lemma Qis_zero_pos (q : Q) : 0 < q -> Qis_zero q = false.
Proof. intros H. apply Qis_zero_false. lra. Qed.

Lemma fdiv_fin (a d : Q) : ~ d == 0 -> fdiv (Fin a) (Fin d) = Fin (a / d).
Proof. intros H. cbn. now rewrite Qis_zero_false. Qed.

Lemma fdiv_zero_zero (a d : Q) : a == 0 -> d == 0 -> fdiv (Fin a) (Fin d) = NaN.
Proof.
  intros Ha Hd. cbn.
  apply Qis_zero_true in Ha, Hd. now rewrite Ha, Hd.
Qed.

(** With nonnegative sums the three denominators are positive, so that
    precision, recall and F1 are nonnegative numbers. *)
Lemma f1_of_nonneg (eps a b c : Q) :
  0 < eps -> 0 <= a -> 0 <= a + b -> 0 <= a + c ->
  0 < a + b + eps /\ 0 < a + c + eps /\
  0 <= a / (a + b + eps) /\ 0 <= a / (a + c + eps) /\
  0 < a / (a + b + eps) + a / (a + c + eps) + eps /\
  0 <= f1_of eps a b c.
Proof.
  intros He Ha Hb Hc.
  assert (Hp0 : 0 <= a / (a + b + eps)) by (apply Qdiv_nonneg; lra).
  assert (Hr0 : 0 <= a / (a + c + eps)) by (apply Qdiv_nonneg; lra).
  repeat split; try lra.
  unfold f1_of. apply Qdiv_nonneg; [|lra].
  apply Qmult_le_0_compat; [|exact Hr0].
  apply Qmult_le_0_compat; [lra | exact Hp0].
Qed.


(** Without a true positive the F1 of the column is zero. *)
Lemma f1_of_zero (eps a b c : Q) :
  0 < eps -> a == 0 -> 0 <= b -> 0 <= c -> f1_of eps a b c == 0.
Proof.
  intros He Ha Hb Hc. unfold f1_of.
  set (p := a / (a + b + eps)). set (r := a / (a + c + eps)).
  assert (Ep : p * (a + b + eps) == a) by (apply Qdiv_cancel; lra).
  assert (Er : r * (a + c + eps) == a) by (apply Qdiv_cancel; lra).
  assert (Hp : p == 0) by nra.
  assert (Hr : r == 0) by nra.
  rewrite Hp, Hr. field. lra.
Qed.


(** The column functions on finite entries. *)
Lemma f1_col_fin (eps : Q) (ts ps : list Q) :
  0 < eps -> 0 <= tpQ ts ps ->
  0 <= tpQ ts ps + fpQ ts ps -> 0 <= tpQ ts ps + fnQ ts ps ->
  precision_col eps (map Fin ts) (map Fin ps)
  = Fin (tpQ ts ps / (tpQ ts ps + fpQ ts ps + eps)) /\
  recall_col eps (map Fin ts) (map Fin ps)
  = Fin (tpQ ts ps / (tpQ ts ps + fnQ ts ps + eps)) /\
  f1_col eps (map Fin ts) (map Fin ps) = Fin (f1Q eps ts ps).
Proof.
  intros He Ha Hb Hc.
  destruct (f1_of_nonneg eps _ _ _ He Ha Hb Hc) as (Hdp & Hdr & Hp & Hr & Hd & _).
  assert (Ep : precision_col eps (map Fin ts) (map Fin ps)
               = Fin (tpQ ts ps / (tpQ ts ps + fpQ ts ps + eps))).
  { unfold precision_col. rewrite tp_col_fin, fp_col_fin. cbn [fadd].
    apply fdiv_fin. lra. }
  assert (Er : recall_col eps (map Fin ts) (map Fin ps)
               = Fin (tpQ ts ps / (tpQ ts ps + fnQ ts ps + eps))).
  { unfold recall_col. rewrite tp_col_fin, fn_col_fin. cbn [fadd].
    apply fdiv_fin. lra. }
  repeat split; auto.
  unfold f1_col. rewrite Ep, Er. cbn [fadd fmul].
  rewrite fdiv_fin by lra. reflexivity.
Qed.

(** Entries and columns of a well-formed tensor. *)
Lemma column_length (t : tensor2) (c : nat) :
  length (column t c) = length (t_rows t).
Proof. unfold column. apply length_map. Qed.

Lemma column_entries (P : tfloat -> Prop) (t : tensor2) (c : nat) :
  wf_tensor t -> (c < t_cols t)%nat -> all_entries P t -> Forall P (column t c).
Proof.
  unfold wf_tensor, all_entries, column. intros Hwf Hc Hall.
  apply Forall_map. rewrite Forall_forall in *. intros r Hr.
  specialize (Hwf r Hr). specialize (Hall r Hr).
  rewrite Forall_forall in Hall. apply Hall, nth_In. lia.
Qed.

Lemma all_entries_impl (P R : tfloat -> Prop) (t : tensor2) :
  (forall x, P x -> R x) -> all_entries P t -> all_entries R t.
Proof.
  intros H. unfold all_entries. apply Forall_impl.
  intros r. apply Forall_impl. exact H.
Qed.

Lemma to_Q_forall (P : tfloat -> Prop) (R : Q -> Prop) (v : vec) :
  (forall x, P x -> exists q, x = Fin q /\ R q) ->
  Forall P v -> v = map Fin (map to_Q v) /\ Forall R (map to_Q v).
Proof.
  intros H Hv. induction Hv as [|x v Hx _ [IH1 IH2]]; [split; [reflexivity|constructor]|].
  destruct (H x Hx) as (q & -> & Hq). cbn. split.
  - now rewrite <- IH1.
  - constructor; assumption.
Qed.

Lemma fnonneg_to_Q (v : vec) :
  Forall fnonneg v -> v = map Fin (map to_Q v) /\ Forall (fun q => 0 <= q) (map to_Q v).
Proof.
  apply to_Q_forall. intros [q| | |] H; try contradiction. now exists q.
Qed.


Lemma fbetween_to_Q (lo hi : Q) (v : vec) :
  Forall (fbetween lo hi) v ->
  v = map Fin (map to_Q v) /\ Forall (fun q => lo <= q /\ q <= hi) (map to_Q v).
Proof.
  apply to_Q_forall. intros [q| | |] H; try contradiction. now exists q.
Qed.

End ColumnBounds.

(* ================================================================== *)
(** * Entries that are zero *)
(* ================================================================== *)

Module SupportFacts.
Import ColumnFacts SumFacts ColumnBounds.

Lemma nth_map_seq {A : Type} (f : nat -> A) (n c : nat) (d : A) :
  (c < n)%nat -> nth c (map f (seq 0 n)) d = f c.
Proof.
  intros Hc.
  rewrite (nth_indep _ d (f O)) by (rewrite length_map, length_seq; exact Hc).
  rewrite map_nth, seq_nth by exact Hc. reflexivity.
Qed.

Lemma feq_zero_to_Q (v : vec) :
  Forall (fun x => feq x (Fin 0)) v ->
  v = map Fin (map to_Q v) /\ Forall (fun q => q == 0) (map to_Q v).
Proof.
  apply to_Q_forall. intros [q| | |] H; try contradiction. now exists q.
Qed.

(** A zero numerator gives 0 after the NaN test, whatever it is divided by. *)
Lemma nan0_fdiv_zero (z : Q) (x : tfloat) :
  z == 0 -> feq (nan0 (fdiv (Fin z) x)) (Fin 0).
Proof.
  intros Hz. destruct x as [s| | |]; cbn; try reflexivity.
  destruct (Qis_zero s) eqn:Es.
  - apply Qis_zero_true in Hz. rewrite Hz. reflexivity.
  - cbn. rewrite Hz. unfold Qdiv. lra.
Qed.

End SupportFacts.

(* ================================================================== *)
(** * The losses on labels in {0,1} and predictions in [0,1] *)
(* ================================================================== *)

Module LossBounds.
Import ColumnFacts SumFacts ColumnBounds SupportFacts.

Lemma fbinary_nonneg (x : tfloat) : fbinary x -> fnonneg x.
Proof. destruct x; cbn; try tauto. intros [H|H]; rewrite H; discriminate. Qed.

Lemma fbetween_nonneg (hi : Q) (x : tfloat) : fbetween 0 hi x -> fnonneg x.
Proof. destruct x; cbn; tauto. Qed.

Lemma nan_to_zero_fin (qs : list Q) : nan_to_zero (map Fin qs) = map Fin qs.
Proof. unfold nan_to_zero. rewrite map_map. reflexivity. Qed.

Lemma Forall_map_seq {A : Type} (P : A -> Prop) (f : nat -> A) (n : nat) :
  (forall c, (c < n)%nat -> P (f c)) -> Forall P (map f (seq 0 n)).
Proof.
  intros H. apply Forall_map, Forall_forall. intros c Hc.
  apply in_seq in Hc. apply H. lia.
Qed.

Lemma map_seq_ext {A : Type} (f g : nat -> A) (n : nat) :
  (forall c, (c < n)%nat -> f c = g c) -> map f (seq 0 n) = map g (seq 0 n).
Proof.
  intros H. apply map_ext_in. intros c Hc. apply in_seq in Hc. apply H. lia.
Qed.

(** The mean of finitely many finite numbers. *)
Lemma vmean_fin (qs : list Q) :
  qs <> [] ->
  vmean (map Fin qs) = Fin (Qsum qs / inject_Z (Z.of_nat (length qs))).
Proof.
  intros Hne. unfold vmean. rewrite vsum_fin, length_map.
  apply fdiv_fin.
  destruct qs as [|q qs]; [congruence|].
  intros H. cbn [length] in H.
  assert (0 < inject_Z (Z.of_nat (S (length qs)))).
  { rewrite <- (Zlt_Qlt 0). lia. }
  lra.
Qed.





Section NonNegative.

Variable eps : Q.
Variables y_true y_pred : tensor2.
Hypothesis eps_pos : 0 < eps.
Hypothesis wf_true : wf_tensor y_true.
Hypothesis wf_pred : wf_tensor y_pred.
Hypothesis shape : same_shape y_true y_pred.
Hypothesis true_nonneg : all_entries fnonneg y_true.
Hypothesis pred_nonneg : all_entries fnonneg y_pred.

Lemma col_true (c : nat) :
  (c < t_cols y_true)%nat ->
  column y_true c = map Fin (colQ y_true c) /\
  Forall (fun q => 0 <= q) (colQ y_true c).
Proof.
  intros Hc. apply fnonneg_to_Q. now apply column_entries.
Qed.

Lemma col_pred (c : nat) :
  (c < t_cols y_true)%nat ->
  column y_pred c = map Fin (colQ y_pred c) /\
  Forall (fun q => 0 <= q) (colQ y_pred c).
Proof.
  intros Hc. apply fnonneg_to_Q. apply column_entries; auto.
  destruct shape as [E _]. lia.
Qed.

Lemma col_lengths (c : nat) : length (colQ y_true c) = length (colQ y_pred c).
Proof.
  unfold colQ. rewrite !length_map, !column_length. apply shape.
Qed.

Lemma col_sums_nonneg (c : nat) :
  (c < t_cols y_true)%nat ->
  0 <= tpQ (colQ y_true c) (colQ y_pred c) /\
  0 <= tpQ (colQ y_true c) (colQ y_pred c) + fpQ (colQ y_true c) (colQ y_pred c) /\
  0 <= tpQ (colQ y_true c) (colQ y_pred c) + fnQ (colQ y_true c) (colQ y_pred c).
Proof.
  intros Hc.
  destruct (col_true c Hc) as [_ Ht]. destruct (col_pred c Hc) as [_ Hp].
  split; [|split].
  - apply (zip_sum_nonneg Qmult (fun q => 0 <= q) (fun q => 0 <= q)); auto.
    intros. now apply Qmult_le_0_compat.
  - rewrite tp_plus_fp by apply col_lengths. now apply Qsum_nonneg.
  - rewrite tp_plus_fn by apply col_lengths. now apply Qsum_nonneg.
Qed.

Lemma f1_col_value (c : nat) :
  (c < t_cols y_true)%nat ->
  f1_col eps (column y_true c) (column y_pred c) = Fin (f1_colQ eps y_true y_pred c) /\
  0 <= f1_colQ eps y_true y_pred c.
Proof.
  intros Hc.
  destruct (col_true c Hc) as [Et _]. destruct (col_pred c Hc) as [Ep _].
  destruct (col_sums_nonneg c Hc) as (Ha & Hb & Hr).
  rewrite Et, Ep. split.
  - now apply f1_col_fin.
  - now apply f1_of_nonneg.
Qed.




Lemma f1_vector_value :
  f1_vector eps y_true y_pred
  = map Fin (map (f1_colQ eps y_true y_pred) (columns_of y_true)).
Proof.
  rewrite f1_vector_columns by (auto; apply shape).
  rewrite map_map. apply map_seq_ext. intros c Hc. now apply f1_col_value.
Qed.

Lemma f1_vector_nonneg : Forall fnonneg (f1_vector eps y_true y_pred).
Proof.
  rewrite f1_vector_value, map_map.
  apply Forall_map_seq. intros c Hc. cbn. now apply f1_col_value.
Qed.

Lemma gp_value :
  sum_axis0 y_true = map Fin (map (support_colQ y_true) (columns_of y_true)).
Proof.
  rewrite gp_columns by auto.
  rewrite map_map. apply map_seq_ext. intros c Hc.
  destruct (col_true c Hc) as [Et _]. rewrite Et. apply gp_col_fin.
Qed.

Lemma support_nonneg (c : nat) :
  (c < t_cols y_true)%nat -> 0 <= support_colQ y_true c.
Proof. intros Hc. apply Qsum_nonneg. now apply col_true. Qed.

Lemma total_support_value :
  vsum (sum_axis0 y_true) = Fin (total_supportQ y_true) /\
  0 <= total_supportQ y_true.
Proof.
  rewrite gp_value, vsum_fin. split; [reflexivity|].
  apply Qsum_nonneg, Forall_map_seq. apply support_nonneg.
Qed.

Lemma weighted_terms_value :
  weighted_terms eps y_true y_pred
  = map (fun c => fdiv (Fin (f1_colQ eps y_true y_pred c * support_colQ y_true c))
                       (Fin (total_supportQ y_true)))
        (columns_of y_true).
Proof.
  unfold weighted_terms, vdiv_s, vmul.
  destruct total_support_value as [-> _].
  rewrite f1_vector_value, gp_value.
  rewrite (zip_with_fin (g := Qmult)) by reflexivity.
  now rewrite zip_with_map, !map_map.
Qed.

(** Without any support every term is [0/0]. *)
Lemma weighted_terms_no_support :
  total_supportQ y_true == 0 ->
  weighted_terms eps y_true y_pred = map (fun _ => NaN) (columns_of y_true).
Proof.
  intros HG. rewrite weighted_terms_value.
  apply map_seq_ext. intros c Hc.
  apply fdiv_zero_zero; [|exact HG].
  assert (Hz : Forall (fun q => q == 0)
                      (map (support_colQ y_true) (columns_of y_true))).
  { apply Qsum_zero_terms; [|exact HG].
    apply Forall_map_seq, support_nonneg. }
  rewrite Forall_forall in Hz.
  rewrite (Hz (support_colQ y_true c)); [lra|].
  apply in_map, in_seq. lia.
Qed.

Lemma weighted_terms_with_support :
  0 < total_supportQ y_true ->
  weighted_terms eps y_true y_pred
  = map Fin (map (fun c => f1_colQ eps y_true y_pred c * support_colQ y_true c
                           / total_supportQ y_true) (columns_of y_true)).
Proof.
  intros HG. rewrite weighted_terms_value, map_map.
  apply map_ext. intros c. apply fdiv_fin. lra.
Qed.

Lemma f1_loss_value :
  (1 <= t_cols y_true)%nat ->
  f1_loss eps y_true y_pred
  = Fin (1 - Qsum (map (f1_colQ eps y_true y_pred) (columns_of y_true))
             / inject_Z (Z.of_nat (t_cols y_true))).
Proof.
  intros Hcols. unfold f1_loss.
  rewrite f1_vector_value, nan_to_zero_fin.
  rewrite vmean_fin.
  - rewrite length_map. unfold columns_of at 2. rewrite length_seq. reflexivity.
  - clear - Hcols. unfold columns_of.
    destruct (t_cols y_true); [lia | discriminate].
Qed.

Lemma weighted_f1_loss_with_support :
  0 < total_supportQ y_true ->
  weighted_f1_loss eps y_true y_pred
  = Fin (1 - Qsum (map (fun c => f1_colQ eps y_true y_pred c * support_colQ y_true c
                                 / total_supportQ y_true) (columns_of y_true))).
Proof.
  intros HG. unfold weighted_f1_loss.
  rewrite weighted_terms_with_support by exact HG.
  rewrite nan_to_zero_fin, vsum_fin. reflexivity.
Qed.

Lemma weighted_f1_loss_no_support :
  total_supportQ y_true == 0 ->
  exists w, weighted_f1_loss eps y_true y_pred = Fin w /\ w == 1.
Proof.
  intros HG. unfold weighted_f1_loss.
  rewrite weighted_terms_no_support by exact HG.
  unfold nan_to_zero. rewrite map_map. cbn [is_nan].
  rewrite <- (map_map (fun _ => 0) Fin), vsum_fin.
  eexists. split; [reflexivity|].
  assert (Hs : Qsum (map (fun _ : nat => 0) (columns_of y_true)) == 0).
  { apply Qsum_all_zero, Forall_map, Forall_forall. intros; reflexivity. }
  rewrite Hs. lra.
Qed.

End NonNegative.

Section UnitInterval.

Variable eps : Q.
Variables y_true y_pred : tensor2.
Hypothesis eps_pos : 0 < eps.
Hypothesis wf_true : wf_tensor y_true.
Hypothesis wf_pred : wf_tensor y_pred.
Hypothesis shape : same_shape y_true y_pred.
Hypothesis true_binary : all_entries fbinary y_true.
Hypothesis pred_unit : all_entries (fbetween 0 1) y_pred.







End UnitInterval.




(** ** Predictions that match the labels exactly *)




Section Perfect.

Variable eps : Q.
Variable y_true : tensor2.
Hypothesis eps_pos : 0 < eps.
Hypothesis wf_true : wf_tensor y_true.
Hypothesis true_binary : all_entries fbinary y_true.
Hypothesis some_column : (1 <= t_cols y_true)%nat.
Hypothesis support :
  forall c, (c < t_cols y_true)%nat ->
            Exists (fun x => feq x (Fin 1)) (column y_true c).


Lemma true_nonneg : all_entries fnonneg y_true.
Proof. eapply all_entries_impl; [apply fbinary_nonneg | exact true_binary]. Qed.








End Perfect.




End LossBounds.

(* ================================================================== *)
(** * Columns without support *)
(* ================================================================== *)

Module EmptySupport.
Import ColumnFacts SumFacts ColumnBounds SupportFacts LossBounds.

Lemma filter_absent (c : nat) (l : list nat) :
  ~ In c l -> filter (fun c' => negb (c' =? c)%nat) l = l.
Proof.
  induction l as [|a l IH]; intros H; [reflexivity|].
  cbn [filter]. destruct (Nat.eqb_spec a c) as [->|Hne].
  - exfalso. apply H. now left.
  - cbn [negb]. f_equal. apply IH. intros Hin. apply H. now right.
Qed.

(** A term that is zero can be left out of a sum over distinct columns. *)
Lemma Qsum_without (f : nat -> Q) (c : nat) (l : list nat) :
  NoDup l -> In c l -> f c == 0 ->
  Qsum (map f l) == Qsum (map f (filter (fun c' => negb (c' =? c)%nat) l)).
Proof.
  induction 1 as [|a l Ha Hnd IH]; intros Hin Hz; [contradiction|].
  cbn [filter map]. destruct (Nat.eqb_spec a c) as [->|Hne].
  - cbn [negb]. rewrite Qsum_cons, Hz, filter_absent by exact Ha. lra.
  - cbn [negb map]. rewrite !Qsum_cons.
    destruct Hin as [->|Hin]; [congruence|].
    rewrite IH by assumption. reflexivity.
Qed.

(** CLAIM C4: when a label column [c] has no positive ground truth in the
    batch (all its [y_true] entries are 0) and its predictions lie in
    [0,1], the column's F1 is 0, so the entry that [f1_loss] averages is
    exactly 0, and the entry that [weighted_f1_loss] sums is exactly 0
    after the NaN test; neither is NaN.  On labels in {0,1} and predictions
    in [0,1] the two losses are then numbers in which column [c] has no
    part: [f1_loss] returns 1 minus the sum of the other columns' F1
    divided by the number of columns, and [weighted_f1_loss] returns 1
    when no column has support and otherwise 1 minus the weighted sum over
    the other columns. *)
Theorem column_without_support_contributes_zero
  (eps : Q) (y_true y_pred : tensor2) (c : nat) :
  0 < eps ->
  wf_tensor y_true ->
  wf_tensor y_pred ->
  same_shape y_true y_pred ->
  (c < t_cols y_true)%nat ->
  Forall (fun x => feq x (Fin 0)) (column y_true c) ->
  Forall (fbetween 0 1) (column y_pred c) ->
  feq (nth c (f1_vector eps y_true y_pred) NaN) (Fin 0) /\
  feq (nth c (nan_to_zero (f1_vector eps y_true y_pred)) NaN) (Fin 0) /\
  feq (nth c (nan_to_zero (weighted_terms eps y_true y_pred)) NaN) (Fin 0) /\
  (all_entries fbinary y_true ->
   all_entries (fbetween 0 1) y_pred ->
   (exists l,
       f1_loss eps y_true y_pred = Fin l /\
       l == 1 - Qsum (map (f1_colQ eps y_true y_pred) (other_columns y_true c))
                / inject_Z (Z.of_nat (t_cols y_true))) /\
   (exists w,
       weighted_f1_loss eps y_true y_pred = Fin w /\
       (total_supportQ y_true == 0 -> w == 1) /\
       (0 < total_supportQ y_true ->
        w == 1 - Qsum (map (fun c' => f1_colQ eps y_true y_pred c'
                                      * support_colQ y_true c'
                                      / total_supportQ y_true)
                           (other_columns y_true c))))).
Proof.
  intros He Ht Hp Hshape Hc Hzero Hpred.
  pose proof Hshape as [Hcols Hrows].
  destruct (feq_zero_to_Q _ Hzero) as [Ets Hts].
  destruct (fbetween_to_Q _ _ _ Hpred) as [Eps Hps].
  fold (colQ y_true c) in Ets, Hts. fold (colQ y_pred c) in Eps, Hps.
  assert (Ha : tpQ (colQ y_true c) (colQ y_pred c) == 0).
  { apply (zip_sum_zero Qmult (fun q => q == 0) (fun _ => True)); auto.
    - intros t p H0 _. rewrite H0. lra.
    - apply Forall_forall. auto. }
  assert (Hfn : fnQ (colQ y_true c) (colQ y_pred c) == 0).
  { apply (zip_sum_zero _ (fun q => q == 0) (fun _ => True)); auto.
    - intros t p H0 _. rewrite H0. lra.
    - apply Forall_forall. auto. }
  assert (Hfp : 0 <= fpQ (colQ y_true c) (colQ y_pred c)).
  { apply (zip_sum_nonneg _ (fun q => q == 0) (fun q => 0 <= q /\ q <= 1)); auto.
    intros t p H0 [Hp0 Hp1]. rewrite H0. lra. }
  destruct (f1_col_fin eps (colQ y_true c) (colQ y_pred c) He) as (_ & _ & Ef1);
    try lra.
  assert (Hf1 : f1_colQ eps y_true y_pred c == 0)
    by (apply f1_of_zero; lra).
  assert (Hg : support_colQ y_true c == 0) by now apply Qsum_all_zero.
  rewrite <- Ets, <- Eps in Ef1.
  split; [|split; [|split]].
  - rewrite f1_vector_columns by assumption.
    unfold columns_of. rewrite nth_map_seq by exact Hc.
    rewrite Ef1. exact Hf1.
  - unfold nan_to_zero. rewrite f1_vector_columns by assumption.
    rewrite map_map. unfold columns_of. rewrite nth_map_seq by exact Hc.
    rewrite Ef1. exact Hf1.
  - unfold nan_to_zero. rewrite weighted_terms_columns by assumption.
    rewrite map_map. unfold columns_of. rewrite nth_map_seq by exact Hc.
    rewrite Ef1, Ets, gp_col_fin. cbn [fmul].
    assert (Hz : f1Q eps (colQ y_true c) (colQ y_pred c) * Qsum (colQ y_true c) == 0)
      by (rewrite Hf1; lra).
    exact (nan0_fdiv_zero _ (total_support y_true) Hz).
  - intros Hbin Hunit.
    assert (Htn : all_entries fnonneg y_true)
      by (eapply all_entries_impl; [apply fbinary_nonneg | exact Hbin]).
    assert (Hpn : all_entries fnonneg y_pred)
      by (eapply all_entries_impl; [apply fbetween_nonneg | exact Hunit]).
    assert (Hin : In c (columns_of y_true)) by (apply in_seq; lia).
    assert (Hnd : NoDup (columns_of y_true)) by apply seq_NoDup.
    split.
    + eexists. split.
      * apply (f1_loss_value eps y_true y_pred He Ht Hp Hshape Htn Hpn). lia.
      * unfold other_columns.
        rewrite <- (Qsum_without (f1_colQ eps y_true y_pred) c) by assumption.
        reflexivity.
    + destruct (total_support_value y_true Ht Htn) as [_ HG].
      destruct (Qlt_le_dec 0 (total_supportQ y_true)) as [Hpos|Hle].
      * eexists. split;
          [apply (weighted_f1_loss_with_support eps y_true y_pred He Ht Hp Hshape
                    Htn Hpn Hpos)|].
        split; [intros Hz0; lra|]. intros _.
        unfold other_columns.
        rewrite <- (Qsum_without
                      (fun c' => f1_colQ eps y_true y_pred c' * support_colQ y_true c'
                                 / total_supportQ y_true) c); try assumption.
        -- reflexivity.
        -- cbv beta. rewrite Hf1. unfold Qdiv. ring.
      * destruct (weighted_f1_loss_no_support eps y_true y_pred He Ht Hp Hshape
                    Htn Hpn) as (w & Ew & Hw); [lra|].
        exists w. split; [exact Ew|]. split; [intros _; exact Hw|].
        intros Hpos. lra.
Qed.

Lemma column_without_support_contributes_zero_witness :
  feq (nth 1 (f1_vector keras_epsilon partly_labelled_batch
                        partly_labelled_prediction) NaN) (Fin 0) /\
  feq (nth 1 (nan_to_zero (weighted_terms keras_epsilon partly_labelled_batch
                                          partly_labelled_prediction)) NaN)
      (Fin 0) /\
  (exists l,
      f1_loss keras_epsilon partly_labelled_batch partly_labelled_prediction
      = Fin l /\
      l == 1 - Qsum (map (f1_colQ keras_epsilon partly_labelled_batch
                                  partly_labelled_prediction)
                         (other_columns partly_labelled_batch 1))
               / inject_Z (Z.of_nat (t_cols partly_labelled_batch))) /\
  (exists w,
      weighted_f1_loss keras_epsilon partly_labelled_batch
                       partly_labelled_prediction = Fin w /\
      (total_supportQ partly_labelled_batch == 0 -> w == 1) /\
      (0 < total_supportQ partly_labelled_batch ->
       w == 1 - Qsum (map (fun c' => f1_colQ keras_epsilon partly_labelled_batch
                                             partly_labelled_prediction c'
                                     * support_colQ partly_labelled_batch c'
                                     / total_supportQ partly_labelled_batch)
                          (other_columns partly_labelled_batch 1)))).
Proof.
  assert (Hwt : wf_tensor partly_labelled_batch) by (repeat constructor).
  assert (Hwp : wf_tensor partly_labelled_prediction) by (repeat constructor).
  assert (Hshape : same_shape partly_labelled_batch partly_labelled_prediction)
    by (split; reflexivity).
  assert (Hc : (1 < t_cols partly_labelled_batch)%nat) by (cbn; lia).
  assert (Hzero : Forall (fun x => feq x (Fin 0)) (column partly_labelled_batch 1))
    by (repeat constructor).
  assert (Hpred : Forall (fbetween 0 1) (column partly_labelled_prediction 1))
    by (repeat constructor; cbn; discriminate).
  assert (Hbin : all_entries fbinary partly_labelled_batch).
  { repeat first [apply Forall_nil | apply Forall_cons
                  | left; reflexivity | right; reflexivity]. }
  assert (Hunit : all_entries (fbetween 0 1) partly_labelled_prediction)
    by (repeat constructor; cbn; discriminate).
  destruct (column_without_support_contributes_zero keras_epsilon
              partly_labelled_batch partly_labelled_prediction 1
              eq_refl Hwt Hwp Hshape Hc Hzero Hpred)
    as (H1 & _ & H3 & Hloss).
  destruct (Hloss Hbin Hunit) as [Hl Hw].
  split; [exact H1|]. split; [exact H3|]. split; [exact Hl | exact Hw].
Defined.

End EmptySupport.

(* ================================================================== *)
(** * The shape of the forward pass *)
(* ================================================================== *)

Module ForwardShape.
Import Keras ColumnFacts.
Local Open Scope nat_scope.

(** Induction on a graph, with the hypothesis for every operand of a
    [Concatenate] or an [Add]. *)
Lemma node_induction (P : node -> Prop)
  (HInput : forall pos w, P (Input pos w))
  (HConcat : forall xs, Forall P xs -> P (Concatenate xs))
  (HDense : forall id units act x, P x -> P (Dense id units act x))
  (HAct : forall act x, P x -> P (Activation act x))
  (HDrop : forall rate x, P x -> P (Dropout rate x))
  (HAdd : forall xs, Forall P xs -> P (Add xs)) :
  forall t, P t.
Proof.
  fix IH 1. intros [pos w|xs|id units act x|act x|rate x|xs].
  - apply HInput.
  - apply HConcat. induction xs as [|x xs IHxs]; constructor; [apply IH | exact IHxs].
  - apply HDense, IH.
  - apply HAct, IH.
  - apply HDrop, IH.
  - apply HAdd. induction xs as [|x xs IHxs]; constructor; [apply IH | exact IHxs].
Qed.

Lemma length_concat_sum {A : Type} (ls : list (list A)) :
  length (concat ls) = list_sum (map (@length A) ls).
Proof.
  induction ls as [|l ls IH]; cbn; [reflexivity|].
  now rewrite length_app, IH.
Qed.

Lemma fold_zip_length {A : Type} (f : A -> A -> A) (vs : list (list A))
  (v : list A) (n : nat) :
  length v = n -> Forall (fun u => length u = n) vs ->
  length (fold_left (zip_with f) vs v) = n.
Proof.
  intros Hv Hvs. revert v Hv.
  induction Hvs as [|u vs Hu _ IH]; intros v Hv; cbn; [exact Hv|].
  apply IH. rewrite zip_with_length. lia.
Qed.

Section Shape.

Variable sigmoid : Q -> Q.
Variable kernel : nat -> nat -> nat -> Q.
Variable bias : nat -> nat -> Q.
Variable feed : list (list Q).

Lemma forward_length (t : node) :
  well_shaped (map (@length Q) feed) t = true ->
  length (forward sigmoid kernel bias feed t) = width t.
Proof.
  induction t as [pos w|xs IH|id units act x IH|act x IH|rate x IH|xs IH]
    using node_induction; cbn [well_shaped forward width]; intros Hw.
  - rewrite nth_error_map in Hw.
    destruct (nth_error feed pos) as [v|] eqn:E; cbn in Hw; [|discriminate].
    apply Nat.eqb_eq in Hw.
    now rewrite (nth_error_nth _ _ _ E).
  - rewrite length_concat_sum, map_map. f_equal.
    rewrite forallb_forall in Hw. rewrite Forall_forall in IH.
    apply map_ext_in. intros x Hx. apply IH; auto.
  - now rewrite length_map, length_seq.
  - rewrite length_map. now apply IH.
  - now apply IH.
  - apply andb_true_iff in Hw. destruct Hw as [Hall Hsame].
    destruct xs as [|x rest]; [reflexivity|].
    cbn [map]. cbn in Hall. apply andb_true_iff in Hall. destruct Hall as [Hx Hrest].
    inversion IH as [|? ? IHx IHrest]; subst.
    apply fold_zip_length; [now apply IHx|].
    apply Forall_map. rewrite Forall_forall in *. intros y Hy.
    rewrite forallb_forall in Hrest, Hsame.
    rewrite IHrest by auto. apply Nat.eqb_eq, Hsame, Hy.
Qed.


End Shape.

End ForwardShape.

(* ================================================================== *)
(** * The chunked prediction loop *)
(* ================================================================== *)

Module InferenceFacts.
Import ColumnFacts SplitterFacts ForwardShape.
Local Open Scope nat_scope.

Lemma list_sum_repeat (k n : nat) : list_sum (repeat k n) = n * k.
Proof.
  induction n as [|n IH]; [reflexivity|].
  change (list_sum (repeat k (S n))) with (k + list_sum (repeat k n)).
  rewrite IH. lia.
Qed.

Lemma section_sizes_sum (total n : nat) :
  0 < n -> list_sum (section_sizes total n) = total.
Proof.
  intros Hn. unfold section_sizes.
  rewrite list_sum_app, !list_sum_repeat.
  pose proof (Nat.div_mod_eq total n) as E.
  pose proof (Nat.mod_upper_bound total n ltac:(lia)) as Hr.
  nia.
Qed.

Lemma section_sizes_length (total n : nat) :
  0 < n -> length (section_sizes total n) = n.
Proof.
  intros Hn. unfold section_sizes.
  rewrite length_app, !repeat_length.
  pose proof (Nat.mod_upper_bound total n ltac:(lia)). lia.
Qed.

Lemma section_sizes_range (total n : nat) :
  Forall (fun k => total / n <= k <= total / n + 1) (section_sizes total n).
Proof.
  unfold section_sizes. apply Forall_app. split.
  - apply Forall_forall. intros k Hk. apply repeat_spec in Hk. lia.
  - apply Forall_forall. intros k Hk. apply repeat_spec in Hk. lia.
Qed.

Lemma split_sections_length {A : Type} (sizes : list nat) (xs : list A) :
  length (split_sections sizes xs) = length sizes.
Proof.
  revert xs. induction sizes as [|k sizes IH]; intros xs; cbn; [reflexivity|].
  now rewrite IH.
Qed.

Lemma split_sections_sizes {A : Type} (sizes : list nat) (xs : list A) :
  list_sum sizes = length xs ->
  map (@length A) (split_sections sizes xs) = sizes.
Proof.
  revert xs. induction sizes as [|k sizes IH]; intros xs Hsum; [reflexivity|].
  change (list_sum (k :: sizes)) with (k + list_sum sizes) in Hsum.
  cbn [split_sections map].
  rewrite length_firstn, IH by (rewrite length_skipn; lia).
  f_equal. lia.
Qed.

Lemma split_sections_concat {A : Type} (sizes : list nat) (xs : list A) :
  list_sum sizes = length xs -> concat (split_sections sizes xs) = xs.
Proof.
  revert xs. induction sizes as [|k sizes IH]; intros xs Hsum.
  - destruct xs; [reflexivity | discriminate].
  - change (list_sum (k :: sizes)) with (k + list_sum sizes) in Hsum.
    cbn [split_sections concat].
    rewrite IH by (rewrite length_skipn; lia). apply firstn_skipn.
Qed.

(** [np.array_split] cuts a list into [n] consecutive pieces. *)
Lemma array_split_partition {A : Type} (xs : list A) (n : nat) :
  0 < n ->
  length (array_split xs n) = n /\
  concat (array_split xs n) = xs /\
  map (@length A) (array_split xs n) = section_sizes (length xs) n.
Proof.
  intros Hn. unfold array_split. split; [|split].
  - now rewrite split_sections_length, section_sizes_length.
  - apply split_sections_concat. now apply section_sizes_sum.
  - apply split_sections_sizes. now apply section_sizes_sum.
Qed.

Lemma zip_with_concat {A B C : Type} (f : A -> B -> C)
  (xss : list (list A)) (yss : list (list B)) :
  map (@length A) xss = map (@length B) yss ->
  concat (zip_with (zip_with f) xss yss) = zip_with f (concat xss) (concat yss).
Proof.
  revert yss. induction xss as [|xs xss IH]; intros [|ys yss] H; cbn in *;
    try discriminate; [reflexivity|].
  injection H as Hlen Hrest. rewrite IH by exact Hrest.
  clear IH Hrest. revert ys Hlen.
  induction xs as [|x xs IHx]; intros [|y ys] Hlen; cbn in *; try discriminate;
    [reflexivity|].
  f_equal. apply IHx. lia.
Qed.

Lemma py_slice_nil {A : Type} (lo hi : nat) : py_slice lo hi (@nil A) = [].
Proof. unfold py_slice. now rewrite skipn_nil, firstn_nil. Qed.

Lemma nth_map_slice {A : Type} (lo hi r : nat) (rows : list (list A)) :
  nth r (map (py_slice lo hi) rows) [] = py_slice lo hi (nth r rows []).
Proof.
  rewrite <- (py_slice_nil lo hi) at 1. apply map_nth.
Qed.

Lemma map_nth_rows {A B : Type} (g : A -> B) (rows : list A) (d : A) :
  map (fun r => g (nth r rows d)) (seq 0 (length rows)) = map g rows.
Proof.
  rewrite <- (map_map (fun r => nth r rows d) g). f_equal. apply map_nth_seq.
Qed.

Lemma nonempty_sections {A : Type} (ls : list (list A)) (sizes : list nat) :
  map (@length A) ls = sizes -> Forall (fun k => 1 <= k) sizes ->
  Forall (fun l => l <> []) ls.
Proof.
  intros <- H. rewrite Forall_map in H.
  eapply Forall_impl; [|exact H]. cbv beta.
  intros l Hl ->. cbn in Hl. lia.
Qed.

Lemma empty_section {A : Type} (ls : list (list A)) (sizes : list nat) :
  map (@length A) ls = sizes -> Exists (fun k => k = 0) sizes ->
  Exists (fun l => l = []) ls.
Proof.
  intros <- H. rewrite Exists_map in H.
  eapply Exists_impl; [|exact H]. cbv beta.
  intros l Hl. now apply length_zero_iff_nil.
Qed.

(** Below a hundred samples the last section is empty. *)
Lemma section_sizes_zero (total : nat) :
  total < 100 -> Exists (fun k => k = 0) (section_sizes total 100).
Proof.
  intros H. unfold section_sizes.
  rewrite Nat.div_small, Nat.mod_small by exact H.
  apply Exists_app. right.
  destruct (100 - total) as [|m] eqn:E; [lia|].
  left. reflexivity.
Qed.

Section Loop.

Variable sigmoid : Q -> Q.
Variable kernel : nat -> nat -> nat -> Q.
Variable bias : nat -> nat -> Q.

Lemma sample_feeds_groups (d : dataframe) :
  sample_feeds (map (group_of d) group_ranges)
  = map (fun row => map (fun '(lo, hi) => py_slice lo hi row) group_ranges)
        (df_rows d).
Proof.
  set (g := fun row : list Q =>
              map (fun '(lo, hi) => py_slice lo hi row) group_ranges).
  unfold sample_feeds. cbn [map group_ranges group_of fst snd df_rows].
  rewrite length_map.
  rewrite <- (map_nth_rows g (df_rows d) []).
  apply map_ext. intros r. unfold g. cbn [map group_ranges].
  now rewrite !nth_map_slice.
Qed.

(** [model.predict] on the six groups of a chunk that holds a sample runs
    the model on each of its rows. *)
Lemma predict_groups (d : dataframe) :
  df_rows d <> [] ->
  predict sigmoid kernel bias (map (group_of d) group_ranges)
  = Some (map (outputs_of sigmoid kernel bias) (df_rows d)).
Proof.
  intros Hne. unfold predict. rewrite sample_feeds_groups.
  destruct (df_rows d) as [|row rows]; [congruence|].
  cbn [map]. rewrite map_map. reflexivity.
Qed.

(** On a chunk without a sample it raises. *)
Lemma predict_no_sample (d : dataframe) :
  df_rows d = [] ->
  predict sigmoid kernel bias (map (group_of d) group_ranges) = None.
Proof.
  intros He. unfold predict. rewrite sample_feeds_groups, He. reflexivity.
Qed.

Lemma chunk_rows_ok (index_split : list (list int64)) (i : nat) (d : dataframe) :
  289 <= df_cols d ->
  df_rows d <> [] ->
  length (df_index d) = length (df_rows d) ->
  nth_error index_split i = Some (df_index d) ->
  chunk_rows sigmoid kernel bias index_split i d
  = Some (map Row (zip_with (sample_row sigmoid kernel bias)
                            (map int64_val (df_index d)) (df_rows d))).
Proof.
  intros Hcols Hne Hlen Hidx. unfold chunk_rows.
  rewrite splitter_some by exact Hcols.
  rewrite predict_groups by exact Hne.
  rewrite Hidx, !length_map, Hlen, Nat.eqb_refl.
  do 2 f_equal. rewrite map_map.
  rewrite zip_with_map_r. reflexivity.
Qed.

Lemma chunk_rows_no_sample (index_split : list (list int64)) (i : nat)
  (d : dataframe) :
  df_rows d = [] -> chunk_rows sigmoid kernel bias index_split i d = None.
Proof.
  intros He. unfold chunk_rows.
  destruct (Nat.lt_ge_cases (df_cols d) 289) as [H|H].
  - now rewrite splitter_narrow.
  - rewrite splitter_some by exact H. now rewrite predict_no_sample.
Qed.

Lemma write_chunks_ok (index_split : list (list int64)) (cols : nat) :
  289 <= cols ->
  forall (idxs : list (list int64)) (rowss : list (list (list Q))) (k : nat)
         (file : list line),
    map (@length int64) idxs = map (@length (list Q)) rowss ->
    Forall (fun rows => rows <> []) rowss ->
    (forall j idx, nth_error idxs j = Some idx ->
                   nth_error index_split (k + j) = Some idx) ->
    write_chunks sigmoid kernel bias index_split
      (combine (seq k (length idxs))
               (zip_with (fun idx rows => mkDF idx cols rows) idxs rowss))
      file
    = Some (file ++ map Row (concat (zip_with
                                       (zip_with (sample_row sigmoid kernel bias))
                                       (map (map int64_val) idxs) rowss))).
Proof.
  intros Hcols idxs.
  induction idxs as [|idx idxs IH]; intros [|rows rowss] k file Hlens Hne Hnth;
    cbn in Hlens; try discriminate.
  - cbn. now rewrite app_nil_r.
  - injection Hlens as Hlen Hrest.
    inversion Hne as [|? ? Hrows Hne']; subst.
    cbn [length seq zip_with combine write_chunks concat map].
    rewrite (chunk_rows_ok index_split k (mkDF idx cols rows)); cbn; auto.
    + rewrite IH; auto.
      * now rewrite map_app, app_assoc.
      * intros j idx' Hj. replace (S k + j) with (k + S j) by lia.
        now apply Hnth.
    + replace k with (k + 0) by lia. now apply Hnth.
Qed.

(** The loop raises as soon as one of its chunks holds no sample. *)
Lemma write_chunks_no_sample (index_split : list (list int64))
  (chunks : list (nat * dataframe)) (file : list line) :
  Exists (fun c => df_rows (snd c) = []) chunks ->
  write_chunks sigmoid kernel bias index_split chunks file = None.
Proof.
  intros H. revert file.
  induction chunks as [|[i d] chunks IH]; intros file; [inversion H|].
  cbn [write_chunks].
  destruct (chunk_rows sigmoid kernel bias index_split i d) as [rows|] eqn:E;
    [|reflexivity].
  inversion H as [? ? Hd|? ? Hrest]; subst.
  - cbn in Hd. rewrite chunk_rows_no_sample in E by exact Hd. discriminate.
  - now apply IH.
Qed.

Lemma write_predictions_no_sample (label_names : list String.string)
  (x_test : dataframe) :
  length (df_rows x_test) < 100 ->
  write_predictions sigmoid kernel bias label_names x_test = None.
Proof.
  intros HM. unfold write_predictions.
  apply write_chunks_no_sample.
  assert (Hn : 0 < nb_split) by (unfold nb_split; lia).
  destruct (array_split_partition (df_index x_test) nb_split Hn) as (Hi1 & _ & _).
  destruct (array_split_partition (df_rows x_test) nb_split Hn) as (Hr1 & _ & Hr3).
  pose proof (empty_section _ _ Hr3 (section_sizes_zero _ HM)) as Hex.
  unfold frame_split, enumerate.
  assert (Hlen : length (array_split (df_index x_test) nb_split)
                 = length (array_split (df_rows x_test) nb_split)) by congruence.
  revert Hlen Hex.
  generalize (array_split (df_index x_test) nb_split).
  generalize (array_split (df_rows x_test) nb_split).
  generalize 0.
  intros k rowss. revert k.
  induction rowss as [|rows rowss IH]; intros k [|idx idxs] Hlen Hex;
    cbn in Hlen; try discriminate; [inversion Hex|].
  cbn [zip_with length seq combine].
  inversion Hex as [? ? Hrows|? ? Hrest]; subst.
  - left. reflexivity.
  - right. apply IH; [lia | exact Hrest].
Qed.

End Loop.





Lemma hundred_sections (total : nat) :
  100 <= total -> Forall (fun k => 1 <= k) (section_sizes total 100).
Proof.
  intros H. eapply Forall_impl; [|apply section_sizes_range].
  cbv beta. intros k [Hk _].
  assert (1 <= total / 100) by (apply Nat.div_le_lower_bound; lia).
  lia.
Qed.

Lemma write_predictions_ok
  (sigmoid : Q -> Q) (kernel : nat -> nat -> nat -> Q) (bias : nat -> nat -> Q)
  (label_names : list String.string) (x_test : dataframe) :
  wf_frame x_test ->
  289 <= df_cols x_test ->
  100 <= length (df_rows x_test) ->
  write_predictions sigmoid kernel bias label_names x_test
  = Some (Header ("ChallengeID"%string :: label_names)
          :: map Row (zip_with (sample_row sigmoid kernel bias)
                               (map int64_val (df_index x_test))
                               (df_rows x_test))).
Proof.
  intros [Hlen Hrows] Hcols HM.
  assert (Hn : 0 < nb_split) by (unfold nb_split; lia).
  destruct (array_split_partition (df_index x_test) nb_split Hn) as (Hi1 & Hi2 & Hi3).
  destruct (array_split_partition (df_rows x_test) nb_split Hn) as (Hr1 & Hr2 & Hr3).
  unfold write_predictions, frame_split, enumerate.
  match goal with
  | |- context [length ?chunks] =>
      replace (length chunks)
        with (length (array_split (df_index x_test) nb_split))
        by (rewrite zip_with_length, Hi1, Hr1; lia)
  end.
  rewrite (write_chunks_ok sigmoid kernel bias _ (df_cols x_test) Hcols).
  - rewrite zip_with_concat
      by (rewrite map_map; erewrite map_ext;
          [rewrite Hi3, Hr3, Hlen; reflexivity | intros; apply length_map]).
    now rewrite <- concat_map, Hi2, Hr2.
  - now rewrite Hi3, Hr3, Hlen.
  - apply (nonempty_sections _ _ Hr3). now apply hundred_sections.
  - intros j idx Hj. exact Hj.
Qed.





End InferenceFacts.

(* ================================================================== *)
(** * Early stopping *)
(* ================================================================== *)

Module TrainingFacts.
Import Training.
Local Open Scope nat_scope.

Section Losses.

Variable val_loss : nat -> Q.

Lemma improves_true (e : nat) :
  improves val_loss e = true <->
  forall e', 1 <= e' < e -> (val_loss e < val_loss e')%Q.
Proof.
  unfold improves, min_delta. rewrite forallb_forall. split.
  - intros H e' He'.
    specialize (H e' ltac:(apply in_seq; lia)).
    apply negb_true_iff in H.
    apply Qnot_le_lt. intros Hle.
    assert (Hb : Qle_bool (val_loss e' - val_loss e) 0 = true)
      by (apply Qle_bool_iff; lra).
    congruence.
  - intros H e' He'. apply in_seq in He'.
    apply negb_true_iff. destruct (Qle_bool _ 0) eqn:E; [|reflexivity].
    apply Qle_bool_iff in E. specialize (H e' ltac:(lia)). lra.
Qed.

Lemma improves_false (e : nat) :
  improves val_loss e = false ->
  exists e', 1 <= e' < e /\ (val_loss e' <= val_loss e)%Q.
Proof.
  unfold improves, min_delta.
  generalize (seq 1 (e - 1)) (fun e' => proj1 (in_seq (e - 1) 1 e')).
  intros l Hl. induction l as [|x l IH]; cbn; [discriminate|].
  destruct (Qle_bool (val_loss x - val_loss e) 0) eqn:E; cbn.
  - intros _. exists x. split; [specialize (Hl x (or_introl eq_refl)); lia|].
    apply Qle_bool_iff in E. lra.
  - intros H. apply IH; [|exact H]. intros e' He'. apply Hl. now right.
Qed.

Lemma stale_at_false_of_improving (e b : nat) :
  e + 1 - patience <= b <= e -> improves val_loss b = true ->
  stale_at val_loss e = false.
Proof.
  intros Hb Himp. unfold stale_at.
  destruct (patience <=? e) eqn:E; [|reflexivity]. cbn [andb].
  apply Nat.leb_le in E.
  destruct (forallb _ _) eqn:F; [|reflexivity].
  rewrite forallb_forall in F.
  specialize (F b ltac:(apply in_seq; unfold patience in *; lia)).
  rewrite Himp in F. discriminate.
Qed.

Lemma stale_at_true_of_window (e : nat) :
  patience <= e ->
  (forall e', e + 1 - patience <= e' <= e -> improves val_loss e' = false) ->
  stale_at val_loss e = true.
Proof.
  intros He H. unfold stale_at.
  apply andb_true_iff. split; [now apply Nat.leb_le|].
  apply forallb_forall. intros e' He'. apply in_seq in He'.
  rewrite H; [reflexivity|]. unfold patience in *. lia.
Qed.

(** On a tracked monitor the callback's test is the test against all
    earlier epochs. *)
Lemma improved_improves (e : nat) (m : monitor) :
  tracked val_loss e m ->
  improved m (val_loss (S e)) = improves val_loss (S e).
Proof.
  intros (Hbest & Hb & _ & _ & _ & _ & Hmin).
  unfold improved, min_delta. rewrite Hbest.
  destruct (improves val_loss (S e)) eqn:E.
  - rewrite improves_true in E. specialize (E (best_epoch m) ltac:(lia)).
    apply negb_true_iff. destruct (Qle_bool _ 0) eqn:F; [|reflexivity].
    apply Qle_bool_iff in F. lra.
  - apply improves_false in E. destruct E as (e' & He' & Hle).
    specialize (Hmin e' ltac:(lia)).
    apply negb_false_iff, Qle_bool_iff. lra.
Qed.

Lemma tracked_first : tracked val_loss 1 (on_epoch_end init 1 (val_loss 1)).
Proof.
  unfold on_epoch_end, improved, init, tracked, patience.
  cbn [best best_epoch wait].
  split; [reflexivity|]. split; [lia|]. split; [reflexivity|].
  split; [lia|]. split; [reflexivity|]. split.
  - intros e' He'. lia.
  - intros e' He'. assert (e' = 1) as -> by lia. lra.
Qed.

(** One more epoch on a tracked monitor: either the wait is still below
    the patience and the monitor tracks one epoch more, or the epoch is
    the eighth in a row without improvement. *)
Lemma tracked_step (e : nat) (m : monitor) :
  1 <= e -> tracked val_loss e m ->
  let m' := on_epoch_end m (S e) (val_loss (S e)) in
  (wait m' < patience /\ tracked val_loss (S e) m' /\
   stale_at val_loss (S e) = false) \/
  (patience <= wait m' /\ best_epoch m' = best_epoch m /\
   improves val_loss (S e) = false /\
   stale_at val_loss (S e) = true).
Proof.
  intros He Htr. cbv zeta. unfold on_epoch_end.
  rewrite (improved_improves e m Htr).
  destruct Htr as (Hbest & Hb & Hwait & Hlt & Himp & Hafter & Hmin).
  destruct (improves val_loss (S e)) eqn:E.
  - left. cbn [wait best best_epoch]. split; [unfold patience; lia|]. split.
    + unfold tracked. cbn [wait best best_epoch].
      split; [reflexivity|]. split; [lia|]. split; [lia|].
      split; [unfold patience; lia|]. split; [exact E|]. split.
      * intros e' He'. lia.
      * intros e' He'. rewrite improves_true in E.
        destruct (Nat.eq_dec e' (S e)) as [->|Hne]; [lra|].
        specialize (E e' ltac:(lia)). lra.
    + apply (stale_at_false_of_improving (S e) (S e)); [lia | exact E].
  - cbn [wait best best_epoch].
    destruct (Nat.lt_ge_cases (S (wait m)) patience) as [Hw|Hw].
    + left. split; [exact Hw|]. split.
      * unfold tracked. cbn [wait best best_epoch].
        split; [exact Hbest|]. split; [lia|]. split; [lia|].
        split; [exact Hw|]. split; [exact Himp|]. split.
        -- intros e' He'.
           destruct (Nat.eq_dec e' (S e)) as [->|Hne]; [exact E|].
           apply Hafter. lia.
        -- intros e' He'.
           destruct (Nat.eq_dec e' (S e)) as [->|Hne]; [|apply Hmin; lia].
           apply improves_false in E. destruct E as (e'' & He'' & Hle).
           specialize (Hmin e'' ltac:(lia)). lra.
      * apply (stale_at_false_of_improving (S e) (best_epoch m));
          [unfold patience in *; lia | exact Himp].
    + right. split; [exact Hw|]. split; [reflexivity|]. split; [reflexivity|].
      apply stale_at_true_of_window; [unfold patience in *; lia|].
      intros e' He'.
      destruct (Nat.eq_dec e' (S e)) as [->|Hne]; [exact E|].
      apply Hafter. unfold patience in *. lia.
Qed.

(** The loop from a tracked monitor on. *)
Lemma fit_loop_outcome (remaining : nat) :
  forall (e : nat) (m : monitor),
    1 <= e -> tracked val_loss e m ->
    (forall e', 1 <= e' <= e -> stale_at val_loss e' = false) ->
    let o := fit_loop val_loss remaining (S e) m in
    e <= halted_at o <= e + remaining /\
    (forall e', 1 <= e' < halted_at o -> stale_at val_loss e' = false) /\
    (early_stopped o = true -> stale_at val_loss (halted_at o) = true) /\
    (early_stopped o = false ->
     halted_at o = e + remaining /\ stale_at val_loss (halted_at o) = false) /\
    1 <= restored o <= halted_at o /\
    improves val_loss (restored o) = true /\
    (forall e', restored o < e' <= halted_at o -> improves val_loss e' = false) /\
    (forall e', 1 <= e' <= halted_at o ->
                (val_loss (restored o) <= val_loss e')%Q).
Proof.
  induction remaining as [|k IH]; intros e m He Htr Hfresh; cbv zeta.
  - cbn [fit_loop halted_at early_stopped restored].
    replace (S e - 1) with e by lia.
    destruct Htr as (Hbest & Hb & Hwait & Hlt & Himp & Hafter & Hmin).
    split; [lia|]. split; [intros; apply Hfresh; lia|].
    split; [discriminate|].
    split; [intros _; split; [lia | apply Hfresh; lia]|].
    split; [lia|]. split; [exact Himp|]. split; assumption.
  - cbn [fit_loop].
    destruct (tracked_step e m He Htr)
      as [(Hw & Htr' & Hst) | (Hw & Hbe & Himp' & Hst)].
    + apply Nat.leb_gt in Hw. rewrite Hw.
      specialize (IH (S e) _ ltac:(lia) Htr').
      destruct IH as (H1 & H2 & H3 & H4 & H5 & H6 & H7 & H8).
      { intros e' He'. destruct (Nat.eq_dec e' (S e)) as [->|Hne]; [exact Hst|].
        apply Hfresh. lia. }
      split; [lia|]. split; [exact H2|]. split; [exact H3|].
      split; [intros Hf; destruct (H4 Hf); split; [lia | assumption]|].
      split; [exact H5|]. split; [exact H6|]. split; assumption.
    + apply Nat.leb_le in Hw. rewrite Hw.
      cbn [halted_at early_stopped restored]. rewrite Hbe.
      destruct Htr as (Hbest & Hb & Hwait & Hlt & Himp & Hafter & Hmin).
      split; [lia|].
      split; [intros e' He'; apply Hfresh; lia|].
      split; [intros _; exact Hst|].
      split; [discriminate|].
      split; [lia|]. split; [exact Himp|]. split.
      * intros e' He'. destruct (Nat.eq_dec e' (S e)) as [->|Hne]; [exact Himp'|].
        apply Hafter. lia.
      * intros e' He'. destruct (Nat.eq_dec e' (S e)) as [->|Hne]; [|apply Hmin; lia].
        apply improves_false in Himp'. destruct Himp' as (e'' & He'' & Hle).
        specialize (Hmin e'' ltac:(lia)). lra.
Qed.

Lemma fit_loop_step (remaining epoch : nat) (m : monitor) :
  fit_loop val_loss (S remaining) epoch m
  = if patience <=? wait (on_epoch_end m epoch (val_loss epoch))
    then mkOutcome epoch true (best_epoch (on_epoch_end m epoch (val_loss epoch)))
    else fit_loop val_loss remaining (S epoch)
           (on_epoch_end m epoch (val_loss epoch)).
Proof. reflexivity. Qed.

Lemma fit_unfold :
  fit val_loss = fit_loop val_loss 599 2 (on_epoch_end init 1 (val_loss 1)).
Proof.
  unfold fit. change epochs with (S 599).
  rewrite fit_loop_step. reflexivity.
Qed.

Lemma stale_at_first : stale_at val_loss 1 = false.
Proof. reflexivity. Qed.

End Losses.

(** CLAIM C9: with the settings of [main.py] (patience 8, no minimum
    improvement, at most 600 epochs), training runs until the first epoch
    that ends eight epochs in a row without a validation loss lower than
    all earlier ones, or until epoch 600 when there is no such epoch; the
    parameters restored are those of the first epoch that reached the
    lowest validation loss seen.  If the loss last improves at epoch 5 and
    not in epochs 6 to 13, training halts at epoch 13 with the snapshot of
    epoch 5 restored. *)
Theorem early_stopping_halts_and_restores (val_loss : nat -> Q) :
  let o := fit val_loss in
  1 <= halted_at o <= 600 /\
  (forall e, 1 <= e < halted_at o -> stale_at val_loss e = false) /\
  (early_stopped o = true -> stale_at val_loss (halted_at o) = true) /\
  (early_stopped o = false ->
   halted_at o = 600 /\ stale_at val_loss 600 = false) /\
  1 <= restored o <= halted_at o /\
  (forall e, 1 <= e <= halted_at o -> (val_loss (restored o) <= val_loss e)%Q) /\
  (forall e, 1 <= e < restored o -> (val_loss (restored o) < val_loss e)%Q) /\
  (improves val_loss 5 = true ->
   (forall e, 6 <= e <= 13 -> improves val_loss e = false) ->
   halted_at o = 13 /\ early_stopped o = true /\ restored o = 5).
Proof.
  cbv zeta. rewrite fit_unfold.
  destruct (fit_loop_outcome val_loss 599 1 _ (le_n 1) (tracked_first val_loss))
    as (H1 & H2 & H3 & H4 & H5 & H6 & H7 & H8).
  { intros e' He'. assert (e' = 1) as -> by lia. apply stale_at_first. }
  set (o := fit_loop val_loss 599 2 (on_epoch_end init 1 (val_loss 1))) in *.
  split; [lia|]. split; [exact H2|]. split; [exact H3|].
  split.
  { intros Hf. destruct (H4 Hf) as [E S]. split; [lia|].
    replace 600 with (halted_at o) by lia. exact S. }
  split; [exact H5|]. split; [exact H8|]. split.
  { intros e He. apply (improves_true val_loss (restored o)); [exact H6 | lia]. }
  intros Himp5 Hflat.
  assert (Hst13 : stale_at val_loss 13 = true).
  { apply stale_at_true_of_window; [unfold patience; lia|].
    intros e' He'. apply Hflat. unfold patience in He'. lia. }
  assert (Hearly : forall h, 1 <= h <= 12 -> stale_at val_loss h = false).
  { intros h Hh. destruct (Nat.lt_ge_cases h patience) as [Hlt|Hge].
    - unfold stale_at. apply Nat.leb_gt in Hlt. now rewrite Hlt.
    - apply (stale_at_false_of_improving val_loss h 5); [|exact Himp5].
      unfold patience in *. lia. }
  assert (Hle : halted_at o <= 13).
  { destruct (Nat.le_gt_cases (halted_at o) 13) as [H|H]; [exact H|].
    rewrite (H2 13) in Hst13 by lia. discriminate. }
  assert (Hes : early_stopped o = true).
  { destruct (early_stopped o) eqn:E; [reflexivity|].
    destruct (H4 eq_refl) as [E600 _]. lia. }
  assert (Hh : halted_at o = 13).
  { destruct (Nat.eq_dec (halted_at o) 13) as [E|Hne]; [exact E|].
    rewrite (Hearly (halted_at o)) in H3 by lia.
    specialize (H3 Hes). discriminate. }
  split; [exact Hh|]. split; [exact Hes|].
  destruct (Nat.lt_trichotomy (restored o) 5) as [Hlt|[E|Hgt]]; [|exact E|].
  - rewrite (H7 5) in Himp5 by lia. discriminate.
  - rewrite (Hflat (restored o)) in H6 by lia. discriminate.
Qed.

Lemma early_stopping_halts_and_restores_witness :
  improves plateau_after_5 5 = true /\
  halted_at (fit plateau_after_5) = 13 /\
  early_stopped (fit plateau_after_5) = true /\
  restored (fit plateau_after_5) = 5.
Proof.
  split; [reflexivity|].
  destruct (early_stopping_halts_and_restores plateau_after_5)
    as (_ & _ & _ & _ & _ & _ & _ & Hscenario).
  apply Hscenario.
  - reflexivity.
  - intros e He.
    do 6 (destruct e as [|e]; [lia|]).
    do 8 (destruct e as [|e]; [reflexivity|]).
    lia.
Defined.

End TrainingFacts.


(* ================================================================== *)
(** * More on the splitter *)
(* ================================================================== *)

Module SplitterEdges.
Import SplitterFacts.
Local Open Scope nat_scope.

(** [splitter] raises exactly when the table has fewer than 289 columns:
    one of the six [iloc] selections is then out of bounds. *)
Theorem splitter_fails_iff (data : dataframe) :
  splitter data = None <-> df_cols data < 289.
Proof.
  split.
  - intros Hnone.
    destruct (Nat.lt_ge_cases (df_cols data) 289) as [H|H]; [exact H|].
    rewrite splitter_some in Hnone by exact H. discriminate.
  - apply splitter_narrow.
Qed.

Lemma firstn_then_more {A : Type} (a b : nat) (l : list A) :
  firstn a l ++ firstn b (skipn a l) = firstn (a + b) l.
Proof.
  revert l. induction a as [|a IH]; intros [|x l]; cbn; try reflexivity.
  - now rewrite firstn_nil.
  - now rewrite IH.
Qed.

(** The six slices of a row, put back together, are its first 289
    entries. *)
Lemma group_slices_concat {A : Type} (row : list A) :
  concat (map (fun '(lo, hi) => py_slice lo hi row) group_ranges)
  = firstn 289 row.
Proof.
  unfold group_ranges, py_slice. cbn [map concat].
  rewrite app_nil_r.
  change (skipn 0 row) with row.
  replace (skipn 281 row) with (skipn 15 (skipn 266 row))
    by (rewrite skipn_skipn; reflexivity).
  rewrite firstn_then_more.
  replace (skipn 266 row) with (skipn 18 (skipn 248 row))
    by (rewrite skipn_skipn; reflexivity).
  rewrite firstn_then_more.
  replace (skipn 248 row) with (skipn 46 (skipn 202 row))
    by (rewrite skipn_skipn; reflexivity).
  rewrite firstn_then_more.
  replace (skipn 202 row) with (skipn 112 (skipn 90 row))
    by (rewrite skipn_skipn; reflexivity).
  rewrite firstn_then_more.
  rewrite firstn_then_more. reflexivity.
Qed.

(** Whenever [splitter] returns, reading the six groups side by side, row
    by row, gives back the first 289 columns of the table in their order:
    nothing is lost, duplicated or moved, and columns from 289 on are
    dropped. *)
Theorem splitter_groups_rejoin (data : dataframe) (x_data : list dataframe) :
  splitter data = Some x_data ->
  map (@concat Q) (sample_feeds x_data) = map (firstn 289) (df_rows data).
Proof.
  intros Hsome.
  pose proof (splitter_some_cols data x_data Hsome) as Hcols.
  rewrite splitter_some in Hsome by exact Hcols. injection Hsome as <-.
  unfold sample_feeds. cbn [map group_ranges group_of fst snd df_rows].
  rewrite length_map, map_map.
  rewrite <- (InferenceFacts.map_nth_rows (firstn 289) (df_rows data) []).
  apply map_ext. intros r.
  rewrite <- group_slices_concat. cbn [map group_ranges].
  now rewrite !InferenceFacts.nth_map_slice.
Qed.

Lemma splitter_groups_rejoin_witness :
  exists x_data,
    splitter three_samples = Some x_data /\
    map (@concat Q) (sample_feeds x_data) = map (firstn 289) (df_rows three_samples).
Proof.
  exists (map (group_of three_samples) group_ranges).
  assert (H : splitter three_samples
              = Some (map (group_of three_samples) group_ranges))
    by (apply splitter_some; cbn; lia).
  split; [exact H|].
  exact (splitter_groups_rejoin three_samples _ H).
Defined.

End SplitterEdges.

(* ================================================================== *)
(** * More on the blocks and the model *)
(* ================================================================== *)

Module BlockFacts.
Import Keras KerasFacts.
Local Open Scope nat_scope.

(** The graph that [block] returns on six inputs or more, written out. *)
Lemma block_unfolded (i0 i1 i2 i3 i4 i5 : node) (rest : list node)
  (act : activation) (n : nat) :
  let fp := [Dense n (scaled_units (width i0) (width i3)) Relu (Concatenate [i0; i3]);
             Dense (S n) (scaled_units (width i1) (width i4)) Relu
                   (Concatenate [i1; i4]);
             Dense (S (S n)) (scaled_units (width i2) (width i5)) Relu
                   (Concatenate [i2; i5])] in
  let shared := Dropout (1 # 10)
                  (Activation Relu (Dense (3 + n) 400 Linear (Concatenate fp))) in
  block (i0 :: i1 :: i2 :: i3 :: i4 :: i5 :: rest) act n
  = Some ([Activation act (Add [i0; Dense (4 + n) (width i0) Linear shared]);
           Activation act (Add [i1; Dense (5 + n) (width i1) Linear shared]);
           Activation act (Add [i2; Dense (6 + n) (width i2) Linear shared])],
          7 + n).
Proof. reflexivity. Qed.

Lemma block_short (inputs : list node) (act : activation) (n : nat) :
  length inputs < 6 -> block inputs act n = None.
Proof.
  intros Hlt.
  do 6 (destruct inputs as [|? inputs]; [reflexivity|]).
  cbn in Hlt. lia.
Qed.

(** [block] raises exactly when it is given fewer than six inputs (the
    first loop reads [inputs[i + 3]] up to [inputs[5]]); with six or more
    it returns three outputs and has created seven dense layers. *)
Theorem block_fails_iff (inputs : list node) (act : activation) (n : nat) :
  (block inputs act n = None <-> length inputs < 6) /\
  (6 <= length inputs ->
   exists outs, block inputs act n = Some (outs, n + 7) /\ length outs = 3).
Proof.
  split; [split|].
  - intros Hnone.
    destruct (Nat.lt_ge_cases (length inputs) 6) as [H|H]; [exact H|].
    destruct (six_inputs inputs H) as (i0 & i1 & i2 & i3 & i4 & i5 & rest & ->).
    rewrite block_unfolded in Hnone. discriminate.
  - apply block_short.
  - intros Hlen.
    destruct (six_inputs inputs Hlen) as (i0 & i1 & i2 & i3 & i4 & i5 & rest & ->).
    rewrite block_unfolded. replace (n + 7) with (7 + n) by lia.
    eexists. split; reflexivity.
Qed.

(** On six well-shaped inputs or more, [block] builds well-shaped outputs
    (the operands of every [Add] have one width) whose widths are those of
    the first three inputs, whatever these widths are, so that blocks can
    be stacked; on a feed of the expected lengths the forward pass gives
    each output as many values as its input has, none being cut by the
    addition. *)
Theorem block_keeps_shapes (widths : list nat) (inputs : list node)
  (act : activation) (n : nat) :
  6 <= length inputs ->
  Forall (fun t => well_shaped widths t = true) (firstn 6 inputs) ->
  exists outs,
    block inputs act n = Some (outs, n + 7) /\
    Forall (fun t => well_shaped widths t = true) outs /\
    map width outs = map width (firstn 3 inputs) /\
    forall sigmoid kernel bias feed,
      map (@length Q) feed = widths ->
      map (fun out => length (forward sigmoid kernel bias feed out)) outs
      = map width (firstn 3 inputs).
Proof.
  intros Hlen Hws.
  destruct (six_inputs inputs Hlen) as (i0 & i1 & i2 & i3 & i4 & i5 & rest & ->).
  rewrite block_unfolded. cbv zeta. replace (n + 7) with (7 + n) by lia.
  eexists. split; [reflexivity|].
  cbn [firstn] in Hws.
  inversion_clear Hws as [|? ? H0 Hws1]. inversion_clear Hws1 as [|? ? H1 Hws2].
  inversion_clear Hws2 as [|? ? H2 Hws3]. inversion_clear Hws3 as [|? ? H3 Hws4].
  inversion_clear Hws4 as [|? ? H4 Hws5]. inversion_clear Hws5 as [|? ? H5 _].
  match goal with
  | |- Forall ?P ?outs /\ _ => assert (Hout : Forall P outs)
  end.
  { repeat constructor; cbn [well_shaped forallb width];
      rewrite H0, H1, H2, H3, H4, H5, Nat.eqb_refl; reflexivity. }
  split; [exact Hout|]. split; [reflexivity|].
  intros sigmoid kernel bias feed Hfeed. subst widths.
  inversion_clear Hout as [|? ? Ho0 Hout1]. inversion_clear Hout1 as [|? ? Ho1 Hout2].
  inversion_clear Hout2 as [|? ? Ho2 _].
  cbn [map firstn].
  rewrite !ForwardShape.forward_length by assumption. reflexivity.
Qed.

Lemma block_keeps_shapes_witness :
  exists outs,
    block input_layers Relu 0 = Some (outs, 7) /\
    Forall (fun t => well_shaped [90; 112; 46; 18; 15; 8] t = true) outs /\
    map width outs = [90; 112; 46].
Proof.
  destruct (block_keeps_shapes [90; 112; 46; 18; 15; 8] input_layers Relu 0)
    as (outs & H1 & H2 & H3 & _).
  - cbn; lia.
  - repeat constructor.
  - exists outs. repeat split; assumption.
Defined.

Section Values.

Variable sigmoid : Q -> Q.
Variable kernel : nat -> nat -> nat -> Q.
Variable bias : nat -> nat -> Q.

(** Every value that a block outputs is the block's final activation
    applied to some number, on every feed; with ReLU the outputs are never
    negative. *)
Theorem block_outputs_are_activated (inputs : list node) (act : activation)
  (n n' : nat) (outs : list node) (feed : list (list Q)) :
  block inputs act n = Some (outs, n') ->
  Forall (fun out =>
            Forall (fun o => exists x, o = apply_activation sigmoid act x)
                   (forward sigmoid kernel bias feed out)) outs /\
  (act = Relu ->
   Forall (fun out => Forall (fun o => (0 <= o)%Q)
                             (forward sigmoid kernel bias feed out)) outs).
Proof.
  intros Hblock.
  assert (Hlen : 6 <= length inputs).
  { destruct (Nat.lt_ge_cases (length inputs) 6) as [H|H]; [|exact H].
    rewrite block_short in Hblock by exact H. discriminate. }
  destruct (six_inputs inputs Hlen) as (i0 & i1 & i2 & i3 & i4 & i5 & rest & ->).
  rewrite block_unfolded in Hblock. cbv zeta in Hblock.
  injection Hblock as <- _.
  assert (Hact : forall v, Forall (fun o => exists x, o = apply_activation sigmoid act x)
                                  (map (apply_activation sigmoid act) v)).
  { intros v. apply Forall_map, Forall_forall. intros x _. now exists x. }
  split.
  - repeat constructor; cbn [forward map]; apply Hact.
  - intros ->.
    assert (Hrelu : forall v, Forall (fun o => (0 <= o)%Q)
                                     (map (apply_activation sigmoid Relu) v)).
    { intros v. apply Forall_map, Forall_forall. intros x _.
      cbn. unfold relu. destruct (Qle_bool 0 x) eqn:E.
      - now apply Qle_bool_iff.
      - apply Qle_refl. }
    repeat constructor; cbn [forward map]; apply Hrelu.
Qed.

Lemma outputs_sigmoid_image (features : list Q) :
  Forall (fun o => exists x, o = sigmoid x)
         (outputs_of sigmoid kernel bias features).
Proof.
  unfold outputs_of.
  assert (Hm : exists a b c,
             model_outputs = Concatenate [Activation Sigmoid a;
                                          Activation Sigmoid b;
                                          Activation Sigmoid c]).
  { unfold model_outputs, build_model, paired_input, bind, index, ret,
      input_layers.
    cbn [nth_error]. rewrite block_unfolded. cbv zeta. cbn [app].
    rewrite block_unfolded. cbv zeta. do 3 eexists. reflexivity. }
  destruct Hm as (a & b & c & ->). cbn [forward map concat].
  rewrite app_nil_r.
  repeat (apply Forall_app; split);
    apply Forall_map, Forall_forall; intros x _; now exists x.
Qed.

Lemma outputs_in_open_unit (features : list Q) :
  (forall x, (0 < sigmoid x < 1)%Q) ->
  Forall (fun o => (0 < o < 1)%Q) (outputs_of sigmoid kernel bias features).
Proof.
  intros Hrange. eapply Forall_impl; [|apply outputs_sigmoid_image].
  cbv beta. intros o [x ->]. apply Hrange.
Qed.

(** The model ends in the second block, whose activation is the sigmoid:
    each of the outputs for a row is a value of the sigmoid, hence strictly
    between 0 and 1 when the sigmoid is, whatever the weights and the
    features are. *)
Theorem model_outputs_are_sigmoid (features : list Q) :
  Forall (fun o => exists x, o = sigmoid x)
         (outputs_of sigmoid kernel bias features) /\
  ((forall x, (0 < sigmoid x < 1)%Q) ->
   Forall (fun o => (0 < o < 1)%Q) (outputs_of sigmoid kernel bias features)).
Proof.
  split; [apply outputs_sigmoid_image | apply outputs_in_open_unit].
Qed.

End Values.

Lemma block_outputs_are_activated_witness :
  exists outs,
    block input_layers Relu 0 = Some (outs, 7) /\
    Forall (fun out =>
              Forall (fun o => (0 <= o)%Q)
                     (forward (fun _ => 1 # 2) (fun _ _ _ => 0%Q) (fun _ _ => 0%Q)
                              [repeat 1%Q 90; repeat 1%Q 112; repeat 1%Q 46;
                               repeat 1%Q 18; repeat 1%Q 15; repeat 1%Q 8]
                              out)) outs.
Proof.
  eexists. split; [unfold input_layers; apply block_unfolded|].
  refine (proj2 (block_outputs_are_activated (fun _ => 1 # 2) (fun _ _ _ => 0%Q)
                   (fun _ _ => 0%Q) input_layers Relu 0 7 _
                   [repeat 1%Q 90; repeat 1%Q 112; repeat 1%Q 46;
                    repeat 1%Q 18; repeat 1%Q 15; repeat 1%Q 8] _) eq_refl).
  unfold input_layers. apply block_unfolded.
Defined.

End BlockFacts.

(* ================================================================== *)
(** * The metrics: rounding, slices and range *)
(* ================================================================== *)

Module MetricFacts.
Import ColumnFacts SumFacts ColumnBounds LossBounds.

Lemma unit_floor (o : Q) :
  0 <= o -> o <= 1 ->
  (Qfloor o = 0%Z /\ o < 1) \/ (Qfloor o = 1%Z /\ o == 1).
Proof.
  intros H0 H1.
  pose proof (Qfloor_le o) as Hlo. pose proof (Qlt_floor o) as Hhi.
  assert (Hf0 : (0 <= Qfloor o)%Z).
  { assert (H : 0 < inject_Z (Qfloor o + 1)) by lra.
    rewrite <- (Zlt_Qlt 0) in H. lia. }
  assert (Hf1 : (Qfloor o <= 1)%Z).
  { assert (H : inject_Z (Qfloor o) <= 1) by lra.
    rewrite <- (Zle_Qle _ 1) in H. exact H. }
  assert (Qfloor o = 0%Z \/ Qfloor o = 1%Z) as [E|E] by lia.
  - left. split; [exact E|]. rewrite E in Hhi. exact Hhi.
  - right. split; [exact E|]. rewrite E in Hlo.
    change (inject_Z 1) with 1 in Hlo. lra.
Qed.

Lemma fround_threshold (o : Q) :
  0 <= o -> o <= 1 ->
  fround (Fin o) = Fin (inject_Z (threshold o)).
Proof.
  intros H0 H1. cbn [fround]. do 2 f_equal.
  unfold Qround_half_even, threshold.
  destruct (unit_floor o H0 H1) as [[E Hlt]|[E Heq]]; rewrite E.
  - change (inject_Z 0) with 0.
    destruct (Qle_bool (o - 0) (1 # 2)) eqn:Ed;
      destruct (Qle_bool o (1 # 2)) eqn:Eo.
    + destruct (Qeq_bool (o - 0) (1 # 2)); reflexivity.
    + apply Qle_bool_iff in Ed.
      assert (Qle_bool o (1 # 2) = true) by (apply Qle_bool_iff; lra).
      congruence.
    + apply Qle_bool_iff in Eo.
      assert (Qle_bool (o - 0) (1 # 2) = true) by (apply Qle_bool_iff; lra).
      congruence.
    + reflexivity.
  - change (inject_Z 1) with 1.
    assert (Ed : Qle_bool (o - 1) (1 # 2) = true) by (apply Qle_bool_iff; lra).
    assert (Eo : Qle_bool o (1 # 2) = false).
    { destruct (Qle_bool o (1 # 2)) eqn:F; [|reflexivity].
      apply Qle_bool_iff in F. lra. }
    assert (Ee : Qeq_bool (o - 1) (1 # 2) = false).
    { destruct (Qeq_bool (o - 1) (1 # 2)) eqn:F; [|reflexivity].
      apply Qeq_bool_iff in F. lra. }
    rewrite Ed, Eo, Ee. reflexivity.
Qed.

(** On predictions between 0 and 1 the rounding of the metrics ([K.round],
    ties to even, so that 0.5 goes to 0) and the threshold of the
    prediction loop ([> 0.5], then the cast to integers) take the same
    decision for every entry. *)
Theorem round_is_threshold (cols : nat) (rows : list (list Q)) :
  Forall (Forall (fun o => 0 <= o /\ o <= 1)) rows ->
  tround (mkT cols (map (map Fin) rows))
  = mkT cols (map (map (fun o => Fin (inject_Z (threshold o)))) rows).
Proof.
  intros H. unfold tround. cbn [t_cols t_rows]. f_equal.
  rewrite map_map. apply map_ext_in. intros r Hr.
  rewrite map_map. apply map_ext_in. intros o Ho.
  rewrite Forall_forall in H. specialize (H r Hr).
  rewrite Forall_forall in H. destruct (H o Ho) as [H0 H1].
  now apply fround_threshold.
Qed.

Lemma round_is_threshold_witness :
  tround (mkT 3 [[Fin (1 # 2); Fin (2 # 3); Fin (1 # 3)]])
  = mkT 3 [[Fin 0; Fin 1; Fin 0]].
Proof.
  apply (round_is_threshold 3 [[1 # 2; 2 # 3; 1 # 3]]).
  repeat constructor; cbn; discriminate.
Defined.


Lemma tround_wf (t : tensor2) : wf_tensor t -> wf_tensor (tround t).
Proof.
  unfold wf_tensor, tround. cbn. intros H.
  apply Forall_map. eapply Forall_impl; [|exact H].
  cbv beta. intros r Hr. now rewrite length_map.
Qed.

Lemma tround_shape (a b : tensor2) : same_shape a b -> same_shape a (tround b).
Proof.
  unfold same_shape, tround. cbn. intros [Hc Hr]. now rewrite length_map.
Qed.






(** ** Column slices and the partial metrics *)







End MetricFacts.

(* ================================================================== *)
(** * Losses that are exactly 1, and the combined loss *)
(* ================================================================== *)

Module LossEdges.
Import ColumnFacts SumFacts ColumnBounds SupportFacts LossBounds MetricFacts.

Lemma feq_zero_nonneg (x : tfloat) : feq x (Fin 0) -> fnonneg x.
Proof. destruct x; cbn; try tauto. intros H. rewrite H. discriminate. Qed.

Lemma feq_one_minus (m : Q) : m == 0 -> feq (Fin (1 - m)) (Fin 1).
Proof. intros H. cbn. rewrite H. reflexivity. Qed.

Section ZeroF1.

Variable eps : Q.
Variables y_true y_pred : tensor2.
Hypothesis eps_pos : 0 < eps.
Hypothesis wf_true : wf_tensor y_true.
Hypothesis wf_pred : wf_tensor y_pred.
Hypothesis shape : same_shape y_true y_pred.
Hypothesis true_nonneg : all_entries fnonneg y_true.
Hypothesis pred_nonneg : all_entries fnonneg y_pred.
Hypothesis no_f1 :
  forall c, (c < t_cols y_true)%nat -> f1_colQ eps y_true y_pred c == 0.

Lemma weighted_f1_loss_one : feq (weighted_f1_loss eps y_true y_pred) (Fin 1).
Proof.
  unfold weighted_f1_loss.
  destruct (total_support_value y_true wf_true true_nonneg) as [EG HG].
  destruct (Qlt_le_dec 0 (total_supportQ y_true)) as [Hpos|Hzero].
  - rewrite (weighted_terms_with_support eps y_true y_pred eps_pos wf_true wf_pred
               shape true_nonneg pred_nonneg Hpos).
    rewrite nan_to_zero_fin, vsum_fin.
    apply feq_one_minus, Qsum_all_zero, Forall_map_seq.
    intros c Hc. rewrite (no_f1 c Hc). field. lra.
  - rewrite (weighted_terms_no_support eps y_true y_pred eps_pos wf_true wf_pred
               shape true_nonneg pred_nonneg) by lra.
    unfold nan_to_zero. rewrite map_map. cbn [is_nan].
    rewrite <- (map_map (fun _ => 0) Fin), vsum_fin.
    apply feq_one_minus, Qsum_all_zero, Forall_map, Forall_forall.
    intros; reflexivity.
Qed.

Lemma f1_loss_one :
  (1 <= t_cols y_true)%nat -> feq (f1_loss eps y_true y_pred) (Fin 1).
Proof.
  intros Hcols. unfold f1_loss.
  rewrite (f1_vector_value eps y_true y_pred eps_pos wf_true wf_pred shape
             true_nonneg pred_nonneg).
  rewrite nan_to_zero_fin.
  assert (Hne : map (f1_colQ eps y_true y_pred) (columns_of y_true) <> []).
  { unfold columns_of. destruct (t_cols y_true); [lia | discriminate]. }
  rewrite vmean_fin by exact Hne.
  apply feq_one_minus.
  assert (Hs : Qsum (map (f1_colQ eps y_true y_pred) (columns_of y_true)) == 0).
  { apply Qsum_all_zero, Forall_map_seq. exact no_f1. }
  rewrite Hs. unfold Qdiv. lra.
Qed.

End ZeroF1.

Lemma zero_column (t : tensor2) (c : nat) :
  wf_tensor t -> (c < t_cols t)%nat ->
  all_entries (fun x => feq x (Fin 0)) t ->
  Forall (fun q => q == 0) (colQ t c).
Proof.
  intros Hwf Hc Hz. apply feq_zero_to_Q. now apply column_entries.
Qed.

Lemma nonneg_column (t : tensor2) (c : nat) :
  wf_tensor t -> (c < t_cols t)%nat ->
  all_entries fnonneg t ->
  Forall (fun q => 0 <= q) (colQ t c).
Proof.
  intros Hwf Hc Hz. apply fnonneg_to_Q. now apply column_entries.
Qed.

(** A batch in which no label is positive (all of [y_true] is 0, or the
    batch has no sample at all) has the largest loss: [weighted_f1_loss]
    is exactly 1, through the replacement of the NaN terms, and [f1_loss]
    is exactly 1 when there is at least one column. *)
Theorem losses_without_positive_label (eps : Q) (y_true y_pred : tensor2) :
  0 < eps ->
  wf_tensor y_true ->
  wf_tensor y_pred ->
  same_shape y_true y_pred ->
  all_entries (fun x => feq x (Fin 0)) y_true ->
  all_entries fnonneg y_pred ->
  feq (weighted_f1_loss eps y_true y_pred) (Fin 1) /\
  ((1 <= t_cols y_true)%nat -> feq (f1_loss eps y_true y_pred) (Fin 1)).
Proof.
  intros He Ht Hp Hs Hz Hn.
  assert (Htn : all_entries fnonneg y_true)
    by (eapply all_entries_impl; [apply feq_zero_nonneg | exact Hz]).
  assert (Hf : forall c, (c < t_cols y_true)%nat -> f1_colQ eps y_true y_pred c == 0).
  { intros c Hc.
    assert (Hcp : (c < t_cols y_pred)%nat) by (destruct Hs; lia).
    pose proof (zero_column y_true c Ht Hc Hz) as Hzc.
    pose proof (nonneg_column y_pred c Hp Hcp Hn) as Hnc.
    apply f1_of_zero; [exact He | | |].
    - apply (zip_sum_zero Qmult (fun q => q == 0) (fun q => 0 <= q)); auto.
      intros t p H0 _. rewrite H0. lra.
    - apply (zip_sum_nonneg _ (fun q => q == 0) (fun q => 0 <= q)); auto.
      intros t p H0 Hp0. rewrite H0. lra.
    - apply Qle_lteq. right. symmetry.
      apply (zip_sum_zero _ (fun q => q == 0) (fun q => 0 <= q)); auto.
      intros t p H0 _. rewrite H0. lra. }
  split.
  - now apply weighted_f1_loss_one.
  - intros Hc. now apply f1_loss_one.
Qed.

Lemma losses_without_positive_label_witness :
  feq (weighted_f1_loss keras_epsilon no_support_batch single_positive_batch) (Fin 1) /\
  feq (f1_loss keras_epsilon no_support_batch single_positive_batch) (Fin 1).
Proof.
  assert (Hwf1 : wf_tensor single_positive_batch) by (repeat constructor).
  assert (Hwf0 : wf_tensor no_support_batch) by (repeat constructor).
  assert (Hs : same_shape no_support_batch single_positive_batch)
    by (split; reflexivity).
  assert (Hz : all_entries (fun x => feq x (Fin 0)) no_support_batch)
    by (repeat constructor).
  assert (Hn : all_entries fnonneg single_positive_batch)
    by (repeat constructor; cbn; discriminate).
  destruct (losses_without_positive_label keras_epsilon no_support_batch
              single_positive_batch eq_refl Hwf0 Hwf1 Hs Hz Hn) as [Hw Hf].
  split; [exact Hw|]. apply Hf. cbn. lia.
Defined.

(** Predicting 0 for every label of every sample gives the largest loss
    whatever the (nonnegative) labels are: no column has a true positive,
    [weighted_f1_loss] is exactly 1 and, with at least one column, so is
    [f1_loss]. *)
Theorem losses_of_zero_predictions (eps : Q) (y_true y_pred : tensor2) :
  0 < eps ->
  wf_tensor y_true ->
  wf_tensor y_pred ->
  same_shape y_true y_pred ->
  all_entries fnonneg y_true ->
  all_entries (fun x => feq x (Fin 0)) y_pred ->
  feq (weighted_f1_loss eps y_true y_pred) (Fin 1) /\
  ((1 <= t_cols y_true)%nat -> feq (f1_loss eps y_true y_pred) (Fin 1)).
Proof.
  intros He Ht Hp Hs Hn Hz.
  assert (Hpn : all_entries fnonneg y_pred)
    by (eapply all_entries_impl; [apply feq_zero_nonneg | exact Hz]).
  assert (Hf : forall c, (c < t_cols y_true)%nat -> f1_colQ eps y_true y_pred c == 0).
  { intros c Hc.
    assert (Hcp : (c < t_cols y_pred)%nat) by (destruct Hs; lia).
    pose proof (nonneg_column y_true c Ht Hc Hn) as Hnc.
    pose proof (zero_column y_pred c Hp Hcp Hz) as Hzc.
    apply f1_of_zero; [exact He | | |].
    - apply (zip_sum_zero Qmult (fun q => 0 <= q) (fun q => q == 0)); auto.
      intros t p _ H0. rewrite H0. lra.
    - apply Qle_lteq. right. symmetry.
      apply (zip_sum_zero _ (fun q => 0 <= q) (fun q => q == 0)); auto.
      intros t p _ H0. rewrite H0. lra.
    - apply (zip_sum_nonneg _ (fun q => 0 <= q) (fun q => q == 0)); auto.
      intros t p Ht0 H0. rewrite H0. lra. }
  split.
  - now apply weighted_f1_loss_one.
  - intros Hc. now apply f1_loss_one.
Qed.

Lemma losses_of_zero_predictions_witness :
  feq (weighted_f1_loss keras_epsilon single_positive_batch no_support_batch) (Fin 1) /\
  feq (f1_loss keras_epsilon single_positive_batch no_support_batch) (Fin 1).
Proof.
  assert (Hwf1 : wf_tensor single_positive_batch) by (repeat constructor).
  assert (Hwf0 : wf_tensor no_support_batch) by (repeat constructor).
  assert (Hs : same_shape single_positive_batch no_support_batch)
    by (split; reflexivity).
  assert (Hz : all_entries (fun x => feq x (Fin 0)) no_support_batch)
    by (repeat constructor).
  assert (Hn : all_entries fnonneg single_positive_batch)
    by (repeat constructor; cbn; discriminate).
  destruct (losses_of_zero_predictions keras_epsilon single_positive_batch
              no_support_batch eq_refl Hwf1 Hwf0 Hs Hn Hz) as [Hw Hf].
  split; [exact Hw|]. apply Hf. cbn. lia.
Defined.

End LossEdges.

(* ================================================================== *)
(** * The combined loss as it is coded *)
(* ================================================================== *)

Module CombinedLoss.
Import ColumnFacts SumFacts ColumnBounds LossBounds MetricFacts LossEdges.
Local Open Scope nat_scope.








Lemma py_slice_within {A : Type} (lo hi n : nat) (l : list A) :
  hi <= n -> py_slice lo hi (firstn n l) = py_slice lo hi l.
Proof.
  intros H. unfold py_slice.
  rewrite skipn_firstn_comm, firstn_firstn.
  f_equal. lia.
Qed.

(** [wf1_loss_p] reads the first 248 samples of the batch only: its three
    slices [0:90], [90:202] and [202:248] run along the batch axis, so the
    samples from position 248 on never enter the loss. *)
Theorem wf1_loss_p_reads_248_samples (eps : Q) (y_true y_pred : tensor2) :
  wf1_loss_p eps y_true y_pred
  = wf1_loss_p eps (slice_rows 0 248 y_true) (slice_rows 0 248 y_pred).
Proof.
  assert (H : forall lo hi t, hi <= 248 ->
                slice_rows lo hi (slice_rows 0 248 t) = slice_rows lo hi t).
  { intros lo hi t Hhi. unfold slice_rows. cbn [t_cols t_rows]. f_equal.
    unfold py_slice at 2. cbn [skipn]. rewrite Nat.sub_0_r.
    now apply py_slice_within. }
  unfold wf1_loss_p. rewrite !H by lia. reflexivity.
Qed.






End CombinedLoss.

(* ================================================================== *)
(** * More on the prediction loop *)
(* ================================================================== *)

Module ChunkFacts.
Import ColumnFacts SplitterFacts SplitterEdges InferenceFacts.
Local Open Scope nat_scope.

(** On a well-formed table in the 289-column layout, the prediction loop
    runs to its end exactly when the table has at least 100 samples: with
    fewer, one of the 100 chunks holds no sample and [model.predict] raises
    on it. *)
Theorem write_predictions_needs_100_samples
  (sigmoid : Q -> Q) (kernel : nat -> nat -> nat -> Q) (bias : nat -> nat -> Q)
  (label_names : list String.string) (x_test : dataframe) :
  wf_frame x_test ->
  289 <= df_cols x_test ->
  (write_predictions sigmoid kernel bias label_names x_test = None
   <-> length (df_rows x_test) < 100).
Proof.
  intros Hwf Hcols. split.
  - intros Hnone.
    destruct (Nat.lt_ge_cases (length (df_rows x_test)) 100) as [H|H]; [exact H|].
    rewrite write_predictions_ok in Hnone by assumption. discriminate.
  - apply write_predictions_no_sample.
Qed.

Lemma write_predictions_needs_100_samples_witness :
  write_predictions (fun _ => 1 # 2) (fun _ _ _ => 0%Q) (fun _ _ => 0%Q)
    ["genre"%string] three_samples = None
  <-> length (df_rows three_samples) < 100.
Proof.
  apply write_predictions_needs_100_samples.
  - split; [reflexivity | repeat constructor].
  - cbn. lia.
Defined.



End ChunkFacts.

(* ================================================================== *)
(** * Decisions of the metrics and of the loop; the empty label set *)
(* ================================================================== *)

Module DecisionFacts.
Import ColumnFacts MetricFacts BlockFacts.

(** When the sigmoid takes its values strictly between 0 and 1, the labels
    that the prediction loop writes for a sample are the model's outputs
    rounded as the metrics [f1] and [weighted_f1] round them: the score
    monitored during training and the file written at the end rest on the
    same decisions. *)
Theorem written_labels_are_rounded_outputs
  (sigmoid : Q -> Q) (kernel : nat -> nat -> nat -> Q) (bias : nat -> nat -> Q)
  (id : Z) (features : list Q) :
  (forall x, 0 < sigmoid x < 1) ->
  map (fun v => Fin (inject_Z v)) (tl (sample_row sigmoid kernel bias id features))
  = map fround (map Fin (outputs_of sigmoid kernel bias features)).
Proof.
  intros Hrange. unfold sample_row. cbn [tl]. rewrite !map_map.
  apply map_ext_in. intros o Ho.
  pose proof (outputs_in_open_unit sigmoid kernel bias features Hrange) as Hall.
  rewrite Forall_forall in Hall. specialize (Hall o Ho).
  symmetry. apply fround_threshold; lra.
Qed.

Lemma written_labels_are_rounded_outputs_witness :
  map (fun v => Fin (inject_Z v))
      (tl (sample_row (fun _ => 1 # 2) (fun _ _ _ => 0) (fun _ _ => 0) 7
                      (repeat 0 289)))
  = map fround
        (map Fin (outputs_of (fun _ => 1 # 2) (fun _ _ _ => 0) (fun _ _ => 0)
                             (repeat 0 289))).
Proof.
  apply written_labels_are_rounded_outputs.
  intros x. split; reflexivity.
Defined.

(** Without any label column (tensors of shape [(n, 0)]) the mean of
    [f1_loss] is taken over nothing: the loss and the metric [f1] are NaN,
    and the NaN test, which acts on the columns, does not prevent it.
    [weighted_f1_loss] sums over nothing and returns 1. *)
Theorem losses_without_columns (eps : Q) (y_true y_pred : tensor2) :
  wf_tensor y_true ->
  wf_tensor y_pred ->
  same_shape y_true y_pred ->
  t_cols y_true = 0%nat ->
  f1_loss eps y_true y_pred = NaN /\
  f1 eps y_true y_pred = NaN /\
  feq (weighted_f1_loss eps y_true y_pred) (Fin 1).
Proof.
  intros Ht Hp Hs Hc.
  assert (Hloss : forall yp, wf_tensor yp -> same_shape y_true yp ->
                             f1_loss eps y_true yp = NaN).
  { intros yp Hwf [Hcols _]. unfold f1_loss.
    rewrite f1_vector_columns by assumption.
    unfold columns_of. rewrite Hc. reflexivity. }
  split; [now apply Hloss|]. split.
  - unfold f1. rewrite Hloss; [reflexivity | now apply tround_wf | now apply tround_shape].
  - unfold weighted_f1_loss.
    rewrite weighted_terms_columns by (auto; apply Hs).
    unfold columns_of. rewrite Hc. reflexivity.
Qed.

Lemma losses_without_columns_witness :
  f1_loss keras_epsilon (mkT 0 [[]; []]) (mkT 0 [[]; []]) = NaN /\
  f1 keras_epsilon (mkT 0 [[]; []]) (mkT 0 [[]; []]) = NaN /\
  feq (weighted_f1_loss keras_epsilon (mkT 0 [[]; []]) (mkT 0 [[]; []])) (Fin 1).
Proof.
  apply losses_without_columns.
  - repeat constructor.
  - repeat constructor.
  - split; reflexivity.
  - reflexivity.
Defined.

End DecisionFacts.
